(** * One_Stop_Ai: the ingestion monitors, embedded and verified

    A shallow embedding of the two monitors of the repository,
    [drive.py] (Google Drive poller) and [simple_slack_monitor.py]
    (Slack poller), together with the properties the specification
    states about them.

    Conventions of the embedding
    - a Python [str] is a Rocq [string], read as the UTF-8 bytes of the
      text; [Py.lower] is [str.lower] on ASCII text and is used where the
      source lowers a literal or a file extension, while [str.lower] of a
      message text, which may hold any letters, is an input;
    - a Python [dict] read from JSON is an association list in insertion
      order ([JObj]); a [set] of ids is a [gset string];
    - the local disk is a finite map from paths to file contents, a file
      holding either raw bytes or the text [json.dump] wrote for a value;
      the two store files can always be written, while whether the file
      of a download can be opened for writing (its name may hold a
      slash, be empty or too long) is an input;
    - the payloads of the two web APIs are records with the fields the
      monitors read, a field the API may leave out being an [option];
    - a function that catches every exception and returns a failure value
      returns that failure value here; the network and the clock are
      explicit inputs, and [time.sleep] is recorded in the state and
      raises on a negative duration;
    - an endless loop is run over the list of the turns it takes before
      it is interrupted. *)

From Stdlib Require Import ZArith String Ascii List Bool Lia.
From Stdlib Require Import Init.Byte.
From stdpp Require Import base gmap sets list strings.
Import ListNotations.

Local Open Scope list_scope.
#[local] Set Warnings "-clear-no-such-hyp".
Local Open Scope Z_scope.

(** ** Python string operations used by the source *)

Module Py.

(** [c.lower()] for one ASCII character. *)
Definition lower_ascii (c : ascii) : ascii :=
  let n := nat_of_ascii c in
  if (Nat.leb 65 n && Nat.leb n 90)%bool then ascii_of_nat (n + 32) else c.

(** [s.lower()] for ASCII text: the letters A to Z are folded and every
    other byte is kept. *)
Fixpoint lower (s : string) : string :=
  match s with
  | EmptyString => EmptyString
  | String c s' => String (lower_ascii c) (lower s')
  end.

(** [s.startswith(p)]. *)
Definition startswith (s p : string) : bool := String.prefix p s.

(** [sub in s] for two strings. *)
Fixpoint contains (sub s : string) : bool :=
  String.prefix sub s ||
  match s with
  | EmptyString => false
  | String _ s' => contains sub s'
  end.

(** [sep.join(l)]. *)
Fixpoint join (sep : string) (l : list string) : string :=
  match l with
  | [] => ""
  | [x] => x
  | x :: rest => x +:+ sep +:+ join sep rest
  end.

(** [str(x)] for an optional string: [None] prints as the word None. *)
Definition str_of_option (o : option string) : string :=
  match o with
  | Some s => s
  | None => "None"
  end.

(** [s.rfind(c)]: the highest index of the character, or -1. *)
Fixpoint rfind_from (c : ascii) (s : string) (i : Z) (acc : Z) : Z :=
  match s with
  | EmptyString => acc
  | String d s' =>
      rfind_from c s' (i + 1) (if Ascii.eqb d c then i else acc)
  end.

Definition rfind (c : ascii) (s : string) : Z := rfind_from c s 0 (-1).

(** [s[a:b]] for [0 <= a <= b]. *)
Definition slice (s : string) (a b : Z) : string :=
  String.substring (Z.to_nat a) (Z.to_nat (b - a)) s.

Definition len (s : string) : Z := Z.of_nat (String.length s).

(** [all(ch == '.' for ch in s)]. *)
Fixpoint all_dots (s : string) : bool :=
  match s with
  | EmptyString => true
  | String c s' => Ascii.eqb c "."%char && all_dots s'
  end.

(** [os.path.splitext(p)] on POSIX: the extension starts at the last dot
    of the last path component, unless that component has only dots
    before it. *)
Definition splitext (p : string) : string * string :=
  let sepIndex := rfind "/"%char p in
  let dotIndex := rfind "."%char p in
  if dotIndex >? sepIndex then
    if all_dots (slice p (sepIndex + 1) dotIndex) then (p, "")
    else (slice p 0 dotIndex, slice p dotIndex (len p))
  else (p, "").

(** [os.path.join(a, b)] on POSIX. *)
Definition path_join (a b : string) : string :=
  if String.prefix "/" b then b
  else if (String.eqb a "" || String.eqb (slice a (len a - 1) (len a)) "/")%bool
       then a +:+ b
       else a +:+ "/" +:+ b.

End Py.

(** ** JSON values and the local disk *)

Module Store.

(** A value as [json.load] returns it and [json.dump] writes it. A Python
    [dict] keeps its keys in insertion order. *)
#[local] Unset Elimination Schemes.
Inductive json : Type :=
| JNull
| JBool (b : bool)
| JNum (n : Z)
| JStr (s : string)
| JArr (items : list json)
| JObj (fields : list (string * json)).
#[local] Set Elimination Schemes.

(** [d.get(k)]. *)
Fixpoint dict_get (k : string) (d : list (string * json)) : option json :=
  match d with
  | [] => None
  | (k', v) :: d' => if String.eqb k k' then Some v else dict_get k d'
  end.

(** [d[k] = v]: an existing key keeps its position, a new key goes last. *)
Fixpoint dict_set (k : string) (v : json) (d : list (string * json))
  : list (string * json) :=
  match d with
  | [] => [(k, v)]
  | (k', v') :: d' =>
      if String.eqb k k' then (k, v) :: d' else (k', v') :: dict_set k v d'
  end.

(** JSON of an optional string: [None] is [null]. *)
Definition json_of_option (o : option string) : json :=
  match o with
  | Some s => JStr s
  | None => JNull
  end.

(** What a file holds: the JSON text of a value, as [json.dump] leaves
    it, or raw bytes that are not a JSON text (a download, or an empty or
    damaged store). *)
Inductive content : Type :=
| Raw (bytes : list byte)
| Json (v : json).

(** [os.path.getsize(p) > 0]. A JSON text is never empty. *)
Definition size_positive (c : content) : bool :=
  match c with
  | Raw [] => false
  | Raw (_ :: _) => true
  | Json _ => true
  end.

(** [json.load(f)]: [None] stands for the decode error. *)
Definition json_load (c : content) : option json :=
  match c with
  | Raw _ => None
  | Json v => Some v
  end.

(** Whether the bytes are well-formed UTF-8, as the strict decoder of a
    file opened in text mode requires. *)
Fixpoint utf8_valid (bytes : list byte) : bool :=
  let cont (b : byte) := (128 <=? Z.of_N (Byte.to_N b)) && (Z.of_N (Byte.to_N b) <=? 191) in
  let between (lo hi : Z) (b : byte) :=
    (lo <=? Z.of_N (Byte.to_N b)) && (Z.of_N (Byte.to_N b) <=? hi) in
  match bytes with
  | [] => true
  | b0 :: rest =>
      if between 0 127 b0 then utf8_valid rest
      else
        match rest with
        | b1 :: rest1 =>
            if between 194 223 b0 then cont b1 && utf8_valid rest1
            else
              match rest1 with
              | b2 :: rest2 =>
                  if between 224 224 b0
                  then between 160 191 b1 && cont b2 && utf8_valid rest2
                  else if between 237 237 b0
                  then between 128 159 b1 && cont b2 && utf8_valid rest2
                  else if between 225 239 b0
                  then cont b1 && cont b2 && utf8_valid rest2
                  else
                    match rest2 with
                    | b3 :: rest3 =>
                        if between 240 240 b0
                        then between 144 191 b1 && cont b2 && cont b3
                             && utf8_valid rest3
                        else if between 241 243 b0
                        then cont b1 && cont b2 && cont b3 && utf8_valid rest3
                        else if between 244 244 b0
                        then between 128 143 b1 && cont b2 && cont b3
                             && utf8_valid rest3
                        else false
                    | [] => false
                    end
              | [] => false
              end
        | [] => false
        end
  end.

(** The chunks of a response body in the order they arrive, and whether
    the transfer completes after them or the transport raises. *)
Record Stream : Type := {
  chunks : list (list byte);
  complete : bool
}.

(** [f.write(chunk)] on a file being written. *)
Definition write_chunk (chunk : list byte) (c : content) : content :=
  match c with
  | Raw bytes => Raw (bytes ++ chunk)
  | Json _ => Raw chunk
  end.

(** [open(path, 'wb')] followed by one write per chunk that arrives. *)
Fixpoint write_chunks (path : string) (cs : list (list byte))
  (fs : gmap string content) : gmap string content :=
  match cs with
  | [] => fs
  | chunk :: cs' =>
      write_chunks path cs'
        (<[path := write_chunk chunk (default (Raw []) (fs !! path))]> fs)
  end.

Definition open_wb (path : string) (fs : gmap string content)
  : gmap string content :=
  <[path := Raw []]> fs.

End Store.

(** ** The Slack monitor, [simple_slack_monitor.py] *)

Module Slack.
Import Store.

(** [config.json], as far as the monitor reads it. The start-up code
    does not check the values; the interval is taken to be an integer,
    of either sign. *)
Record Config : Type := {
  SLACK_BOT_TOKEN : string;
  TARGET_CHANNELS : list string;
  JSON_FILE : string;
  POLL_INTERVAL : Z
}.

Definition LOGGING_FILE : string := "knowledge_base/slack/logging.json".
Definition DOWNLOAD_FOLDER : string := "knowledge_base/slack".
Definition MAX_FILE_SIZE : Z := 25 * 1024 * 1024.
Definition SUPPORTED_EXTENSIONS : list string :=
  [".txt"; ".pdf"; ".docx"; ".json"; ".md"; ".csv"; ".xlsx"; ".pptx"].

(** One entry of a message's [files] list; a field the API left out is
    [None]. *)
Record FileInfo : Type := {
  file_id : option string;
  name : option string;
  size : option Z;
  url_private_download : option string;
  url_private : option string;
  mimetype : option string
}.

(** One message of [conversations.history]: the dictionary as it was
    received, and the four values the monitor reads from it with [get]. *)
Record Message : Type := {
  raw : json;
  user : option string;
  text : option string;
  ts : option string;
  files : list FileInfo
}.

(** The answer to one [requests.get]: the call raises, or a response with
    a status code and a streamed body arrives. *)
Inductive HttpReply : Type :=
| ConnectionError
| Response (status_code : Z) (body : Stream).

(** The answer to one [conversations_history] call. *)
Inductive HistoryReply : Type :=
| HistoryOk (messages : list Message)
| HistoryApiError
| HistoryOtherError.

(** What a pass takes as given: the wall clock in its two renderings,
    the web, whether [open(path, 'wb')] succeeds for the file of a
    download, and [str.lower] on the text of a message. *)
Record Env : Type := {
  isoformat : nat -> string;
  strftime : nat -> string;
  requests_get : string -> HttpReply;
  can_open : string -> bool;
  str_lower : string -> string
}.

(** The state the monitor acts on: the disk, the number of clock readings
    taken so far, the cursor [self.last_check_time], and the durations
    passed to [time.sleep] so far. *)
Record World : Type := {
  fs : gmap string content;
  clock : nat;
  last_check_time : nat;
  sleeps : list Z
}.

Definition set_fs (w : World) (fs' : gmap string content) : World :=
  {| fs := fs'; clock := clock w;
     last_check_time := last_check_time w; sleeps := sleeps w |}.

(** [datetime.now()]: the reading and the world after it. *)
Definition now (w : World) : nat * World :=
  (clock w,
   {| fs := fs w; clock := S (clock w);
      last_check_time := last_check_time w; sleeps := sleeps w |}).

(** [time.sleep(secs)]: [None] is the [ValueError] of a negative
    duration. *)
Definition sleep (secs : Z) (w : World) : option World :=
  if secs <? 0 then None
  else Some {| fs := fs w; clock := clock w;
               last_check_time := last_check_time w;
               sleeps := sleeps w ++ [secs] |}.

Definition empty_events : json :=
  JObj [("events", JArr []); ("last_updated", JNull)].

Definition empty_logging : json :=
  JObj [("messages", JArr []); ("last_updated", JNull);
        ("total_messages", JNum 0)].

(** The body shared by the two loaders: the file is read only when it
    exists with a positive size, and any exception gives the default. *)
Definition load_store (path : string) (dflt : json) (w : World) : json :=
  match fs w !! path with
  | Some c =>
      if size_positive c then
        match json_load c with
        | Some v => v
        | None => dflt
        end
      else dflt
  | None => dflt
  end.

Definition load_existing_data (cfg : Config) (w : World) : json :=
  load_store (JSON_FILE cfg) empty_events w.

Definition load_logging_data (w : World) : json :=
  load_store LOGGING_FILE empty_logging w.

(** [existing_data[key].append(item)]: [None] when a subscript or the
    method raises. *)
Definition append_to (key : string) (item : json) (existing_data : json)
  : option (list (string * json) * list json) :=
  match existing_data with
  | JObj d =>
      match dict_get key d with
      | Some (JArr l) => Some (dict_set key (JArr (l ++ [item])) d, l ++ [item])
      | _ => None
      end
  | _ => None
  end.

Definition save_to_logging (env : Env) (w : World) (message_data : json)
  : bool * World :=
  let existing_data := load_logging_data w in
  match append_to "messages" message_data existing_data with
  | None => (false, w)
  | Some (d1, messages) =>
      let '(t, w1) := now w in
      let d2 := dict_set "last_updated" (JStr (isoformat env t)) d1 in
      let d3 := dict_set "total_messages" (JNum (Z.of_nat (length messages))) d2 in
      (true, set_fs w1 (<[LOGGING_FILE := Json (JObj d3)]> (fs w1)))
  end.

Definition save_to_json (cfg : Config) (env : Env) (w : World) (data : json)
  : bool * World :=
  let existing_data := load_existing_data cfg w in
  match append_to "events" data existing_data with
  | None => (false, w)
  | Some (d1, _) =>
      let '(t, w1) := now w in
      let d2 := dict_set "last_updated" (JStr (isoformat env t)) d1 in
      (true, set_fs w1 (<[JSON_FILE cfg := Json (JObj d2)]> (fs w1)))
  end.

(** [a or b] on two optional strings: the first one that is neither
    [None] nor empty, else the second. *)
Definition or_else (a b : option string) : option string :=
  match a with
  | Some (String _ _) => a
  | _ => b
  end.

(** [bool(x)] for an optional string. *)
Definition truthy (x : option string) : bool :=
  match x with
  | Some (String _ _) => true
  | _ => false
  end.

(** The locals that [download_file] reads off [file_info]. *)
Definition file_name_of (file_info : FileInfo) : string :=
  default ("file_" +:+ Py.str_of_option (file_id file_info)) (name file_info).

Definition file_size_of (file_info : FileInfo) : Z :=
  default 0 (size file_info).

Definition file_url_of (file_info : FileInfo) : option string :=
  or_else (url_private_download file_info) (url_private file_info).

(** [ext.lower()], where [_, ext = os.path.splitext(file_name)]. *)
Definition resolved_extension (file_info : FileInfo) : string :=
  Py.lower (snd (Py.splitext (file_name_of file_info))).

(** [x in l] for a list of strings. *)
Definition in_list (x : string) (l : list string) : bool :=
  existsb (String.eqb x) l.

(** The three early returns of [download_file], each named after the
    message it prints, and the case that goes on to the request. *)
Inductive RejectReason : Type :=
| too_large
| unsupported_extension
| no_download_url.

Inductive Decision : Type :=
| proceed
| reject (reason : RejectReason).

(** The checks of [download_file] that come before any network access,
    in the order of the source. *)
Definition gate (file_info : FileInfo) : Decision :=
  if file_size_of file_info >? MAX_FILE_SIZE then reject too_large
  else if negb (in_list (resolved_extension file_info) SUPPORTED_EXTENSIONS)
  then reject unsupported_extension
  else if negb (truthy (file_url_of file_info)) then reject no_download_url
  else proceed.

(** The dictionary [download_file] returns on success. *)
Record DownloadResult : Type := {
  original_name : string;
  saved_path : string;
  result_size : Z;
  result_mimetype : string;
  download_timestamp : string;
  result_file_id : option string
}.

(** [sum(len(chunk) for chunk in chunks)]. *)
Definition total_size (cs : list (list byte)) : Z :=
  Z.of_nat (length (concat cs)).

Definition download_file (env : Env) (w : World) (file_info : FileInfo)
  : option DownloadResult * World :=
  let file_name := file_name_of file_info in
  match gate file_info with
  | reject _ => (None, w)
  | proceed =>
      match requests_get env (default "" (file_url_of file_info)) with
      | ConnectionError => (None, w)
      | Response status_code body =>
          if status_code =? 200 then
            let '(t, w1) := now w in
            let safe_filename := strftime env t +:+ "_" +:+ file_name in
            let file_path := Py.path_join DOWNLOAD_FOLDER safe_filename in
            if can_open env file_path then
              let w2 :=
                set_fs w1 (write_chunks file_path (chunks body)
                             (open_wb file_path (fs w1))) in
              if complete body then
                let '(t2, w3) := now w2 in
                (Some {| original_name := file_name;
                         saved_path := file_path;
                         result_size := total_size (chunks body);
                         result_mimetype := default "" (mimetype file_info);
                         download_timestamp := isoformat env t2;
                         result_file_id := file_id file_info |}, w3)
              else (None, w2)
            else (None, w1)
          else (None, w)
      end
  end.

(** The loop of [process_message_files] over [message['files']]. *)
Fixpoint process_files (env : Env) (w : World) (fl : list FileInfo)
  : list (FileInfo * DownloadResult) * World :=
  match fl with
  | [] => ([], w)
  | file_info :: rest =>
      let '(download_result, w1) := download_file env w file_info in
      let '(downloaded_files, w2) := process_files env w1 rest in
      match download_result with
      | Some r => ((file_info, r) :: downloaded_files, w2)
      | None => (downloaded_files, w2)
      end
  end.

Definition process_message_files (env : Env) (w : World) (message : Message)
  : list (FileInfo * DownloadResult) * World :=
  process_files env w (files message).

(** [get_recent_messages]: a Slack API error is caught and gives no
    messages; [None] is any other exception, which the caller sees. *)
Definition get_recent_messages (history : string -> nat -> HistoryReply)
  (channel : string) (since_timestamp : nat) : option (list Message) :=
  match history channel since_timestamp with
  | HistoryOk messages => Some messages
  | HistoryApiError => Some []
  | HistoryOtherError => None
  end.

(** [message.get('user') == self.bot_user_id]. *)
Definition from_bot (bot_user_id : option string) (message : Message) : bool :=
  bool_decide (user message = bot_user_id).

(** The body of the inner loop of [log_all_recent_messages]. *)
Definition log_message (env : Env) (bot_user_id : option string)
  (w : World) (message : Message) : World :=
  if from_bot bot_user_id message then w
  else
    let '(downloaded_files, w1) := process_message_files env w message in
    let '(t, w2) := now w1 in
    let message_data :=
      JObj [("timestamp", JStr (isoformat env t));
            ("user_id", json_of_option (user message));
            ("text_usethisforQueries", JStr (default "" (text message)))] in
    snd (save_to_logging env w2 message_data).

Fixpoint log_messages (env : Env) (bot_user_id : option string)
  (w : World) (messages : list Message) : World :=
  match messages with
  | [] => w
  | message :: rest =>
      log_messages env bot_user_id (log_message env bot_user_id w message) rest
  end.

(** The outer loop of [log_all_recent_messages]; an exception that
    reaches its handler ends the pass. *)
Fixpoint log_channels (env : Env) (history : string -> nat -> HistoryReply)
  (bot_user_id : option string) (w : World) (channels : list string) : World :=
  match channels with
  | [] => w
  | channel :: rest =>
      match get_recent_messages history channel (last_check_time w) with
      | Some messages =>
          log_channels env history bot_user_id
            (log_messages env bot_user_id w messages) rest
      | None => w
      end
  end.

Definition log_all_recent_messages (cfg : Config) (env : Env)
  (history : string -> nat -> HistoryReply) (bot_user_id : option string)
  (w : World) : World :=
  log_channels env history bot_user_id w (TARGET_CHANNELS cfg).

(** The body of the inner loop of [check_for_files_in_history]; the
    numbers are the files found and the files downloaded. *)
Definition scan_message (env : Env) (bot_user_id : option string)
  (st : World * (Z * Z)) (message : Message) : World * (Z * Z) :=
  let '(w, (files_found, files_downloaded)) := st in
  if from_bot bot_user_id message then st
  else
    match files message with
    | [] => st
    | _ :: _ =>
        let '(downloaded_files, w1) := process_message_files env w message in
        (w1, (files_found + Z.of_nat (length (files message)),
              files_downloaded + Z.of_nat (length downloaded_files)))
    end.

Fixpoint scan_messages (env : Env) (bot_user_id : option string)
  (st : World * (Z * Z)) (messages : list Message) : World * (Z * Z) :=
  match messages with
  | [] => st
  | message :: rest =>
      scan_messages env bot_user_id (scan_message env bot_user_id st message) rest
  end.

(** The loop over the channels; here the history call is not wrapped, so
    either kind of error ends the scan with [False]. The number carried is
    [total_files_downloaded]. *)
Fixpoint scan_channels (env : Env) (history : string -> HistoryReply)
  (bot_user_id : option string) (w : World) (total_files_downloaded : Z)
  (channels : list string) : bool * World :=
  match channels with
  | [] => (total_files_downloaded >? 0, w)
  | channel :: rest =>
      match history channel with
      | HistoryOk messages =>
          let '(w1, (_, files_downloaded)) :=
            scan_messages env bot_user_id (w, (0, 0)) messages in
          scan_channels env history bot_user_id w1
            (total_files_downloaded + files_downloaded) rest
      | _ => (false, w)
      end
  end.

Definition check_for_files_in_history (cfg : Config) (env : Env)
  (history : string -> HistoryReply) (bot_user_id : option string)
  (w : World) : bool * World :=
  scan_channels env history bot_user_id w 0 (TARGET_CHANNELS cfg).

(** The four values [trigger_type] can take. *)
Inductive TriggerType : Type :=
| bot_mention
| aisave_command
| keyword_trigger
| pattern_match.

Definition trigger_name (t : TriggerType) : string :=
  match t with
  | bot_mention => "bot_mention"
  | aisave_command => "aisave_command"
  | keyword_trigger => "keyword_trigger"
  | pattern_match => "pattern_match"
  end.

Definition keywords : list string :=
  ["/aisave"; "save this"; "important"; "remember this"; "@ai"; "@bot"].

Definition patterns : list string := ["todo:"; "note:"; "reminder:"].

(** The [if]/[elif] chain of [check_bot_mentions_and_keywords]: the pair
    [(trigger_type, trigger_details)], or [None] when both stay unset.
    [lower] stands for [str.lower] on the message text; the keywords are
    ASCII literals, which [Py.lower] lowers as [str.lower] does. *)
Definition classify (lower : string -> string)
  (bot_user_id : option string) (message_text : string)
  : option (TriggerType * string) :=
  if Py.contains ("<@" +:+ Py.str_of_option bot_user_id +:+ ">") message_text
  then Some (bot_mention, "Direct bot mention")
  else if Py.contains "/aisave" (lower message_text)
  then Some (aisave_command, "Manual /aisave command")
  else if existsb (fun keyword =>
                     Py.contains (Py.lower keyword) (lower message_text))
            keywords
  then
    let matched_keywords :=
      List.filter (fun kw => Py.contains (Py.lower kw) (lower message_text))
        keywords in
    Some (keyword_trigger, "Keywords: " +:+ Py.join ", " matched_keywords)
  else if existsb (fun pattern => Py.contains pattern (lower message_text))
            patterns
  then Some (pattern_match, "Contains todo/note/reminder pattern")
  else None.

(** The body of the inner loop of [check_bot_mentions_and_keywords]. *)
Definition check_message (cfg : Config) (env : Env)
  (bot_user_id : option string) (channel : string)
  (w : World) (message : Message) : World :=
  let message_text := default "" (text message) in
  let message_user := default "" (user message) in
  let message_ts := default "" (ts message) in
  if bool_decide (Some message_user = bot_user_id) then w
  else
    match classify (str_lower env) bot_user_id message_text with
    | Some (trigger_type, trigger_details) =>
        let '(t, w1) := now w in
        let event_data :=
          JObj [("type", JStr (trigger_name trigger_type));
                ("timestamp", JStr (isoformat env t));
                ("trigger_details", JStr trigger_details);
                ("message",
                 JObj [("text", JStr message_text);
                       ("user_id", JStr message_user);
                       ("timestamp", JStr message_ts);
                       ("channel", JStr channel);
                       ("permalink",
                        JStr ("https://app.slack.com/client/T09CV0AF7A4/"
                              +:+ channel +:+ "/thread/" +:+ channel
                              +:+ "-" +:+ message_ts))]);
                ("raw_message", raw message)] in
        snd (save_to_json cfg env w1 event_data)
    | None => w
    end.

Fixpoint check_messages (cfg : Config) (env : Env)
  (bot_user_id : option string) (channel : string)
  (w : World) (messages : list Message) : World :=
  match messages with
  | [] => w
  | message :: rest =>
      check_messages cfg env bot_user_id channel
        (check_message cfg env bot_user_id channel w message) rest
  end.

Fixpoint check_channels (cfg : Config) (env : Env)
  (history : string -> nat -> HistoryReply) (bot_user_id : option string)
  (w : World) (channels : list string) : World :=
  match channels with
  | [] => w
  | channel :: rest =>
      match get_recent_messages history channel (last_check_time w) with
      | Some messages =>
          check_channels cfg env history bot_user_id
            (check_messages cfg env bot_user_id channel w messages) rest
      | None => w
      end
  end.

Definition check_bot_mentions_and_keywords (cfg : Config) (env : Env)
  (history : string -> nat -> HistoryReply) (bot_user_id : option string)
  (w : World) : World :=
  check_channels cfg env history bot_user_id w (TARGET_CHANNELS cfg).

(** What one turn of [_monitor_loop] meets: the clock and the web, and
    the answers of the history endpoint to the logging pass and to the
    trigger pass. *)
Record Cycle : Type := {
  env : Env;
  log_history : string -> nat -> HistoryReply;
  trigger_history : string -> nat -> HistoryReply
}.

(** One turn of the [while self.running] loop: the world after it, and
    whether the loop goes on. Both passes catch every exception
    themselves, so the turn always reaches the sleep of its [try] block.
    If that sleep raises, the handler sleeps in its turn; if that raises
    too, nothing catches it and the loop is over. *)
Definition monitor_cycle (cfg : Config) (bot_user_id : option string)
  (w : World) (c : Cycle) : World * bool :=
  let w1 := log_all_recent_messages cfg (env c) (log_history c) bot_user_id w in
  let w2 :=
    check_bot_mentions_and_keywords cfg (env c) (trigger_history c)
      bot_user_id w1 in
  let '(t, w3) := now w2 in
  let w4 := {| fs := fs w3; clock := clock w3;
               last_check_time := t; sleeps := sleeps w3 |} in
  match sleep (POLL_INTERVAL cfg) w4 with
  | Some w5 => (w5, true)
  | None =>
      match sleep (POLL_INTERVAL cfg) w4 with
      | Some w5 => (w5, true)
      | None => (w4, false)
      end
  end.

(** [_monitor_loop], over the turns offered before [running] is cleared;
    a turn that ends the loop leaves the later ones untaken. *)
Fixpoint _monitor_loop (cfg : Config) (bot_user_id : option string)
  (w : World) (cycles : list Cycle) : World :=
  match cycles with
  | [] => w
  | c :: rest =>
      let '(w1, goes_on) := monitor_cycle cfg bot_user_id w c in
      if goes_on then _monitor_loop cfg bot_user_id w1 rest else w1
  end.

(** *** Start-up: the configuration and the bot identity *)

(** [bool(v)] for a JSON value. *)
Definition json_truthy (v : json) : bool :=
  match v with
  | JNull => false
  | JBool b => b
  | JNum n => negb (n =? 0)
  | JStr s => negb (String.eqb s "")
  | JArr [] => false
  | JArr (_ :: _) => true
  | JObj [] => false
  | JObj (_ :: _) => true
  end.

(** What [load_config] does: it returns the decoded value, it returns
    [None] (the file is not there, or its text is not JSON), or it lets
    an exception through, as it does for bytes that are not UTF-8 text,
    the encoding the file is read in: only [FileNotFoundError] and
    [JSONDecodeError] are caught. *)
Inductive Loaded : Type :=
| returned (v : json)
| returned_None
| load_raised.

Definition load_config (fs : gmap string content) : Loaded :=
  match fs !! "config.json" with
  | Some (Json v) => returned v
  | Some (Raw bytes) => if utf8_valid bytes then returned_None else load_raised
  | None => returned_None
  end.

(** [v[k]] for a string key: [None] when the subscript raises, which it
    does on anything but a dictionary that has the key. *)
Definition subscript (v : json) (k : string) : option json :=
  match v with
  | JObj d => dict_get k d
  | _ => None
  end.

(** How the module-level code ends: [exit(1)], an exception that nothing
    catches, or the four settings. The values are kept as the file gives
    them, since the module does not check them. *)
Inductive Startup : Type :=
| exit_1
| raised
| ready (bot_token : json) (target_channels : list json)
    (json_file : json) (poll_interval : json).

Definition startup (fs : gmap string content) : Startup :=
  match load_config fs with
  | load_raised => raised
  | returned_None => exit_1
  | returned config =>
      if negb (json_truthy config) then exit_1
      else
        match
          slack ← subscript config "slack";
          bot_token ← subscript slack "bot_token";
          target_channel ← subscript slack "target_channel";
          output ← subscript config "output";
          json_file ← subscript output "json_file";
          monitoring ← subscript config "monitoring";
          poll_interval ← subscript monitoring "poll_interval";
          Some (ready bot_token
                  (match target_channel with
                   | JArr l => l
                   | _ => [target_channel]
                   end)
                  json_file poll_interval)
        with
        | Some r => r
        | None => raised
        end
  end.

(** The answer to [auth_test]. *)
Inductive AuthReply : Type :=
| AuthOk (user_id : option string)
| AuthApiError.

Definition get_bot_user_id (auth : AuthReply) : option string :=
  match auth with
  | AuthOk user_id => user_id
  | AuthApiError => None
  end.

(** [SimpleSlackMonitor.__init__]: the cursor is set to the current time
    and the bot identity is asked for. *)
Definition __init__ (auth : AuthReply) (w : World) : option string * World :=
  let '(t, w1) := now w in
  (get_bot_user_id auth,
   {| fs := fs w1; clock := clock w1; last_check_time := t; sleeps := sleeps w1 |}).

(** [main], as far as the monitor thread goes: without a bot identity it
    returns; otherwise the history is scanned once, with a limit of 100
    that the history endpoint has already applied to its answer, and the
    loop runs until it is stopped. *)
Definition main (cfg : Config) (auth : AuthReply) (scan_env : Env)
  (scan_history : string -> HistoryReply) (cycles : list Cycle) (w : World)
  : World :=
  let '(bot_user_id, w1) := __init__ auth w in
  if negb (truthy bot_user_id) then w1
  else
    let '(_, w2) :=
      check_for_files_in_history cfg scan_env scan_history bot_user_id w1 in
    _monitor_loop cfg bot_user_id w2 cycles.

End Slack.

(** ** The Drive monitor, [drive.py] *)

Module Drive.
Import Store.

Definition POLL_INTERVAL : Z := 30.
Definition DOWNLOAD_FOLDER : string := "knowledge_base/drive".

(** One entry of [files.list]; [id] and [name] are always sent, the
    other fields the monitor reads with [get]. *)
Record DriveFile : Type := {
  id : string;
  name : string;
  createdTime : option string;
  mimeType : option string;
  size : option Z
}.

(** The answer to one page request of [get_all_files]. *)
Inductive PageReply : Type :=
| PageError
| Page (files : list DriveFile) (nextPageToken : option string).

(** [get_all_files]: the pages are read in order until one carries no
    token; [None] is the exception of a failed request (a service that
    stops answering fails the request). *)
Fixpoint get_all_files (replies : list PageReply) (all_files : list DriveFile)
  : option (list DriveFile) :=
  match replies with
  | [] => None
  | PageError :: _ => None
  | Page files page_token :: rest =>
      match page_token with
      | Some (String _ _) => get_all_files rest (all_files ++ files)
      | _ => Some (all_files ++ files)
      end
  end.

(** The media requests [download_file] builds. *)
Inductive Request : Type :=
| get_media (fileId : string)
| export_media (fileId : string) (mimeType : string).

Definition export_formats : gmap string string :=
  list_to_map
    [("application/vnd.google-apps.document",
      "application/vnd.openxmlformats-officedocument.wordprocessingml.document");
     ("application/vnd.google-apps.spreadsheet",
      "application/vnd.openxmlformats-officedocument.spreadsheetml.sheet");
     ("application/vnd.google-apps.presentation",
      "application/vnd.openxmlformats-officedocument.presentationml.presentation")].

(** The [if]/[elif] chain that extends [file_name] for an export. *)
Definition export_name (file_name mime_type : string) : string :=
  if String.eqb mime_type "application/vnd.google-apps.document"
  then file_name +:+ ".docx"
  else if String.eqb mime_type "application/vnd.google-apps.spreadsheet"
  then file_name +:+ ".xlsx"
  else if String.eqb mime_type "application/vnd.google-apps.presentation"
  then file_name +:+ ".pptx"
  else file_name.

(** The first half of [download_file]: the request to run and the name
    to save under, or [None] for the early [return False]. *)
Definition gate (file_id file_name mime_type : string)
  : option (Request * string) :=
  if Py.startswith mime_type "application/vnd.google-apps" then
    match export_formats !! mime_type with
    | Some export_mime =>
        Some (export_media file_id export_mime, export_name file_name mime_type)
    | None => None
    end
  else Some (get_media file_id, file_name).

(** The disk, with the paths [io.FileIO(path, 'wb')] can open, the media
    requests run so far, and the durations passed to [time.sleep] so
    far. *)
Record World : Type := {
  fs : gmap string content;
  can_open : string -> bool;
  fetched : list Request;
  sleeps : list Z
}.

Definition sleep (secs : Z) (w : World) : World :=
  {| fs := fs w; can_open := can_open w; fetched := fetched w;
     sleeps := sleeps w ++ [secs] |}.

(** [download_file]: the file is opened at its final path and each chunk
    is written as it arrives; an exception on the way gives [False]. The
    request is only built before the file is opened, so if the file
    cannot be opened nothing is fetched. *)
Definition download_file (media : Request -> Stream) (w : World)
  (file_id file_name mime_type : string) : bool * World :=
  match gate file_id file_name mime_type with
  | None => (false, w)
  | Some (request, file_name) =>
      let file_path := Py.path_join DOWNLOAD_FOLDER file_name in
      if can_open w file_path then
        let body := media request in
        (complete body,
         {| fs := write_chunks file_path (chunks body) (open_wb file_path (fs w));
            can_open := can_open w;
            fetched := fetched w ++ [request];
            sleeps := sleeps w |})
      else (false, w)
  end.

(** The [for file in current_files] loop of one poll. *)
Fixpoint process_new (media : Request -> Stream) (new_file_ids : gset string)
  (known_files : gset string) (w : World) (current_files : list DriveFile)
  : gset string * World :=
  match current_files with
  | [] => (known_files, w)
  | file :: rest =>
      if decide (id file ∈ new_file_ids) then
        let '(success, w1) :=
          download_file media w (id file) (name file)
            (default "" (mimeType file)) in
        process_new media new_file_ids
          (if success then {[id file]} ∪ known_files else known_files) w1 rest
      else process_new media new_file_ids known_files w rest
  end.

(** What one turn of the polling loop meets: the answers to the listing
    and the bodies of the media requests. *)
Record Poll : Type := {
  listing : list PageReply;
  media : Request -> Stream
}.

(** [current_file_ids - known_files] of one turn; a failed listing has
    no partition. *)
Definition new_file_ids (known_files : gset string) (p : Poll) : gset string :=
  match get_all_files (listing p) [] with
  | Some current_files =>
      list_to_set (id <$> current_files) ∖ known_files
  | None => ∅
  end.

(** One turn of the [while True] loop. *)
Definition poll (st : gset string * World) (p : Poll) : gset string * World :=
  let '(known_files, w) := st in
  match get_all_files (listing p) [] with
  | Some current_files =>
      let current_file_ids : gset string := list_to_set (id <$> current_files) in
      let new_file_ids := current_file_ids ∖ known_files in
      let '(known_files', w1) :=
        if decide (new_file_ids = ∅) then (known_files, w)
        else process_new (media p) new_file_ids known_files w current_files in
      (known_files', sleep POLL_INTERVAL w1)
  | None => (known_files, sleep POLL_INTERVAL w)
  end.

Fixpoint poll_loop (st : gset string * World) (polls : list Poll)
  : gset string * World :=
  match polls with
  | [] => st
  | p :: rest => poll_loop (poll st p) rest
  end.

(** [monitor_drive], over the turns taken before the interrupt: the first
    listing seeds [known_files]; if it fails the monitor returns. *)
Definition monitor_drive (w : World) (initial : list PageReply)
  (polls : list Poll) : gset string * World :=
  match get_all_files initial [] with
  | Some initial_files => poll_loop (list_to_set (id <$> initial_files), w) polls
  | None => (∅, w)
  end.

(** The [new] partitions of the turns of a run, in order. *)
Fixpoint partitions (st : gset string * World) (polls : list Poll)
  : list (gset string) :=
  match polls with
  | [] => []
  | p :: rest => new_file_ids (fst st) p :: partitions (poll st p) rest
  end.

End Drive.

(** ** The vocabulary of the specification *)

Module Spec.
Import Store.

(** *** TriggerClassifier: the rules, one by one, and their priority *)

Definition mention_rule (bot_user_id : option string) (text : string) : bool :=
  Py.contains ("<@" +:+ Py.str_of_option bot_user_id +:+ ">") text.

(** In the three rules below [lower] is [str.lower] on the text. *)
Definition command_rule (lower : string -> string) (text : string) : bool :=
  Py.contains "/aisave" (lower text).

Definition keyword_rule (lower : string -> string) (text : string) : bool :=
  existsb (fun k => Py.contains (Py.lower k) (lower text)) Slack.keywords.

Definition pattern_rule (lower : string -> string) (text : string) : bool :=
  existsb (fun p => Py.contains p (lower text)) Slack.patterns.

(** Mention, then command, then keyword, then pattern. *)
Definition rules (lower : string -> string) (bot_user_id : option string)
  : list (Slack.TriggerType * (string -> bool)) :=
  [(Slack.bot_mention, mention_rule bot_user_id);
   (Slack.aisave_command, command_rule lower);
   (Slack.keyword_trigger, keyword_rule lower);
   (Slack.pattern_match, pattern_rule lower)].

(** The label of the first rule, in list order, that matches. *)
Fixpoint first_match (rs : list (Slack.TriggerType * (string -> bool)))
  (text : string) : option Slack.TriggerType :=
  match rs with
  | [] => None
  | (label, rule) :: rest =>
      if rule text then Some label else first_match rest text
  end.

(** The label the monitor gives a text. *)
Definition label_of (lower : string -> string) (bot_user_id : option string)
  (text : string) : option Slack.TriggerType :=
  fst <$> Slack.classify lower bot_user_id text.

(** The sentence of the specification on a text that matches a keyword
    and a pattern, read by itself: such a text gets the keyword label. *)
Definition keyword_wins_as_stated (lower : string -> string)
  (bot_user_id : option string) : Prop :=
  forall text,
    keyword_rule lower text = true -> pattern_rule lower text = true ->
    label_of lower bot_user_id text = Some Slack.keyword_trigger.

(** *** DownloadGate *)

(** The export table, with the extension the source adds for each
    subtype. *)
Definition export_table : list (string * (string * string)) :=
  [("application/vnd.google-apps.document",
    ("application/vnd.openxmlformats-officedocument.wordprocessingml.document",
     ".docx"));
   ("application/vnd.google-apps.spreadsheet",
    ("application/vnd.openxmlformats-officedocument.spreadsheetml.sheet",
     ".xlsx"));
   ("application/vnd.google-apps.presentation",
    ("application/vnd.openxmlformats-officedocument.presentationml.presentation",
     ".pptx"))].

(** The gate rule on sizes as the specification words it: at or below
    the ceiling is accepted, above it is refused as too large. *)
Definition size_rule_as_stated (file_info : Slack.FileInfo) : Prop :=
  (Slack.file_size_of file_info <= Slack.MAX_FILE_SIZE ->
   Slack.gate file_info = Slack.proceed) /\
  (Slack.file_size_of file_info > Slack.MAX_FILE_SIZE ->
   Slack.gate file_info = Slack.reject Slack.too_large).

(** Purity of the gate as the specification words it: the decision is
    settled by the size and the resolved extension alone. *)
Definition settled_by_size_and_extension : Prop :=
  forall f g : Slack.FileInfo,
    Slack.file_size_of f = Slack.file_size_of g ->
    Slack.resolved_extension f = Slack.resolved_extension g ->
    Slack.gate f = Slack.gate g.

(** *** Downloader: where a download is saved *)

(** The path the Slack monitor saves a file under, when the download
    starts in world [w]. *)
Definition slack_final_path (env : Slack.Env) (w : Slack.World)
  (file_info : Slack.FileInfo) : string :=
  Py.path_join Slack.DOWNLOAD_FOLDER
    (Slack.strftime env (Slack.clock w) +:+ "_" +:+ Slack.file_name_of file_info).

(** The path the Drive monitor saves a file under. *)
Definition drive_final_path (save_name : string) : string :=
  Py.path_join Drive.DOWNLOAD_FOLDER save_name.

(** *** DedupTracker: the partitions of a run *)

(** The ids a poll lists. *)
Definition listed (p : Drive.Poll) : gset string :=
  match Drive.get_all_files (Drive.listing p) [] with
  | Some current_files => list_to_set (Drive.id <$> current_files)
  | None => ∅
  end.

(** Whether the download of a file succeeds on a disk that opens the
    paths [can_open] and against the given media: the type check lets it
    through, its file can be opened, and the transfer completes. *)
Definition download_ok (can_open : string -> bool)
  (media : Drive.Request -> Stream) (file : Drive.DriveFile) : bool :=
  match Drive.gate (Drive.id file) (Drive.name file)
          (default "" (Drive.mimeType file)) with
  | Some (request, save_name) =>
      can_open (drive_final_path save_name) && complete (media request)
  | None => false
  end.

(** The ids among [new_file_ids] that some entry of the list downloads
    successfully. *)
Definition succeeded_in (can_open : string -> bool)
  (media : Drive.Request -> Stream)
  (new_file_ids : gset string) (current_files : list Drive.DriveFile)
  : gset string :=
  list_to_set
    (Drive.id <$>
       List.filter
         (fun file =>
            bool_decide (Drive.id file ∈ new_file_ids)
            && download_ok can_open media file)
         current_files).

(** The ids of the new partition of a poll whose download succeeds in
    that poll, taken from the state [st]. *)
Definition succeeded (st : gset string * Drive.World) (p : Drive.Poll)
  : gset string :=
  match Drive.get_all_files (Drive.listing p) [] with
  | Some current_files =>
      succeeded_in (Drive.can_open (snd st)) (Drive.media p)
        (Drive.new_file_ids (fst st) p) current_files
  | None => ∅
  end.

(** For each poll of a run, its new partition and the ids downloaded
    successfully in it. *)
Fixpoint run_log (st : gset string * Drive.World) (polls : list Drive.Poll)
  : list (gset string * gset string) :=
  match polls with
  | [] => []
  | p :: rest =>
      (Drive.new_file_ids (fst st) p, succeeded st p)
        :: run_log (Drive.poll st p) rest
  end.

(** Dedup as the specification words it: no id is in the new partition
    of two polls of a run. *)
Definition at_most_one_partition (parts : list (gset string)) : Prop :=
  forall i j (N M : gset string) (x : string),
    i <> j -> parts !! i = Some N -> parts !! j = Some M ->
    x ∈ N -> x ∉ M.

(** *** PollLoop: a cycle whose listing fails *)

(** A history call that did not return messages. *)
Definition history_failed (r : Slack.HistoryReply) : Prop :=
  match r with
  | Slack.HistoryOk _ => False
  | _ => True
  end.


(** *** EventLog: what a reader sees in a store *)

(** The store file is missing or empty. *)
Definition missing_or_empty (fs : gmap string content) (path : string) : Prop :=
  fs !! path = None \/ fs !! path = Some (Raw []).

(** The list kept under [key] in a loaded store. *)
Definition records (key : string) (store : json) : option (list json) :=
  match store with
  | JObj d =>
      match dict_get key d with
      | Some (JArr l) => Some l
      | _ => None
      end
  | _ => None
  end.

(** The value kept under [key] in a loaded store. *)
Definition field (key : string) (store : json) : option json :=
  match store with
  | JObj d => dict_get key d
  | _ => None
  end.

(** *** Vocabulary of the further properties *)

(** The file a media request is for. *)
Definition request_id (r : Drive.Request) : string :=
  match r with
  | Drive.get_media fileId => fileId
  | Drive.export_media fileId _ => fileId
  end.

(** The request the download of a file runs, if it runs one: the type
    check lets the file through and its path can be opened. *)
Definition request_of (can_open : string -> bool) (file : Drive.DriveFile)
  : option Drive.Request :=
  match Drive.gate (Drive.id file) (Drive.name file)
          (default "" (Drive.mimeType file)) with
  | Some (request, save_name) =>
      if can_open (drive_final_path save_name) then Some request else None
  | None => None
  end.

(** The entries a poll lists. *)
Definition files_of (p : Drive.Poll) : list Drive.DriveFile :=
  default [] (Drive.get_all_files (Drive.listing p) []).

(** A page that carries a token for the next one. *)
Definition page_with_token (x : list Drive.DriveFile * (ascii * string))
  : Drive.PageReply :=
  Drive.Page (fst x) (Some (String (fst (snd x)) (snd (snd x)))).



(** A history answer without the messages of the given author. *)
Definition without_author (bot : string) (r : Slack.HistoryReply)
  : Slack.HistoryReply :=
  match r with
  | Slack.HistoryOk messages =>
      Slack.HistoryOk
        (List.filter
           (fun m => negb (bool_decide (Slack.user m = Some bot))) messages)
  | _ => r
  end.

Definition cycle_without_author (bot : string) (c : Slack.Cycle) : Slack.Cycle :=
  {| Slack.env := Slack.env c;
     Slack.log_history := fun channel t =>
       without_author bot (Slack.log_history c channel t);
     Slack.trigger_history := fun channel t =>
       without_author bot (Slack.trigger_history c channel t) |}.

End Spec.

(** ** Concrete inputs used in the examples below *)

Module Fixtures.
Import Store.

Definition cfg0 : Slack.Config :=
  {| Slack.SLACK_BOT_TOKEN := "xoxb-0";
     Slack.TARGET_CHANNELS := ["C1"];
     Slack.JSON_FILE := "slack_events.json";
     Slack.POLL_INTERVAL := 10 |}.

(** A download folder without subfolders: a file can be opened in it
    when its name is not empty and holds no slash. *)
Definition flat_folder (folder path : string) : bool :=
  String.prefix (folder +:+ "/") path &&
  (let file_name :=
     Py.slice path (Py.len (folder +:+ "/")) (Py.len path) in
   negb (String.eqb file_name "") && negb (Py.contains "/" file_name)).

(** A web that serves every URL in two chunks. *)
Definition env0 : Slack.Env :=
  {| Slack.isoformat := fun _ => "2025-01-01T00:00:00";
     Slack.strftime := fun _ => "20250101_000000";
     Slack.requests_get := fun _ =>
       Slack.Response 200 {| chunks := [[x41; x42]; [x43]]; complete := true |};
     Slack.can_open := flat_folder Slack.DOWNLOAD_FOLDER;
     Slack.str_lower := Py.lower |}.

(** A fresh machine: nothing on disk. *)
Definition w0 : Slack.World :=
  {| Slack.fs := ∅; Slack.clock := 0%nat;
     Slack.last_check_time := 0%nat; Slack.sleeps := [] |}.

Definition hello : json :=
  JObj [("timestamp", JStr "2025-01-01T00:00:00");
        ("user_id", JStr "U1");
        ("text_usethisforQueries", JStr "hello")].

(** An installer of ten bytes, with a download link. *)
Definition setup_exe : Slack.FileInfo :=
  {| Slack.file_id := Some "F1"; Slack.name := Some "setup.exe";
     Slack.size := Some 10;
     Slack.url_private_download := Some "https://files.slack.com/F1/download";
     Slack.url_private := Some "https://files.slack.com/F1";
     Slack.mimetype := Some "application/octet-stream" |}.

(** A text file of exactly [size] bytes, with a download link. *)
Definition notes_txt (size : Z) : Slack.FileInfo :=
  {| Slack.file_id := Some "F2"; Slack.name := Some "notes.txt";
     Slack.size := Some size;
     Slack.url_private_download := Some "https://files.slack.com/F2/download";
     Slack.url_private := None;
     Slack.mimetype := Some "text/plain" |}.

(** The same text file as the API reports it without any link. *)
Definition notes_txt_no_url (size : Z) : Slack.FileInfo :=
  {| Slack.file_id := Some "F2"; Slack.name := Some "notes.txt";
     Slack.size := Some size;
     Slack.url_private_download := None;
     Slack.url_private := None;
     Slack.mimetype := Some "text/plain" |}.

(** A web whose connection drops after the first chunk of a body. *)
Definition env_drop : Slack.Env :=
  {| Slack.isoformat := fun _ => "2025-01-01T00:00:00";
     Slack.strftime := fun _ => "20250101_000000";
     Slack.requests_get := fun _ =>
       Slack.Response 200 {| chunks := [[x41; x42]]; complete := false |};
     Slack.can_open := flat_folder Slack.DOWNLOAD_FOLDER;
     Slack.str_lower := Py.lower |}.

(** Drive media whose transfer breaks after the first chunk, and media
    that arrive whole. *)
Definition media_drop (r : Drive.Request) : Stream :=
  {| chunks := [[x41; x42]]; complete := false |}.

Definition media_ok (r : Drive.Request) : Stream :=
  {| chunks := [[x41; x42]; [x43]]; complete := true |}.

Definition d0 : Drive.World :=
  {| Drive.fs := ∅; Drive.can_open := flat_folder Drive.DOWNLOAD_FOLDER;
     Drive.fetched := []; Drive.sleeps := [] |}.

(** A native Drive file of a terabyte. *)
Definition big_bin : Drive.DriveFile :=
  {| Drive.id := "f1"; Drive.name := "big.bin";
     Drive.createdTime := None;
     Drive.mimeType := Some "application/octet-stream";
     Drive.size := Some 1000000000000 |}.

(** A message the monitoring bot wrote itself, full of triggers and with
    a file attached, and the same text from a person. *)
Definition bot_says : Slack.Message :=
  {| Slack.raw :=
       JObj [("type", JStr "message"); ("user", JStr "U0BOT");
             ("text", JStr "important todo: <@U0BOT> /aisave");
             ("ts", JStr "1735689600.000100");
             ("files",
              JArr [JObj [("id", JStr "F2"); ("name", JStr "notes.txt");
                          ("size", JNum 500);
                          ("url_private_download",
                           JStr "https://files.slack.com/F2/download");
                          ("mimetype", JStr "text/plain")]])];
     Slack.user := Some "U0BOT";
     Slack.text := Some "important todo: <@U0BOT> /aisave";
     Slack.ts := Some "1735689600.000100";
     Slack.files := [notes_txt 500] |}.

Definition ann_says : Slack.Message :=
  {| Slack.raw :=
       JObj [("type", JStr "message"); ("user", JStr "U1");
             ("text", JStr "this is important");
             ("ts", JStr "1735689600.000200")];
     Slack.user := Some "U1";
     Slack.text := Some "this is important";
     Slack.ts := Some "1735689600.000200";
     Slack.files := [] |}.

(** A cycle whose first history call is refused by the API while the
    second one answers. *)
Definition cycle_half : Slack.Cycle :=
  {| Slack.env := env0;
     Slack.log_history := fun _ _ => Slack.HistoryApiError;
     Slack.trigger_history := fun _ _ => Slack.HistoryOk [ann_says] |}.


(** A poll that lists the one big file while its transfer breaks, and a
    poll that lists it while transfers work. *)
Definition poll_drop : Drive.Poll :=
  {| Drive.listing := [Drive.Page [big_bin] None]; Drive.media := media_drop |}.

Definition poll_ok : Drive.Poll :=
  {| Drive.listing := [Drive.Page [big_bin] None]; Drive.media := media_ok |}.


(** A disk whose message log holds a JSON list instead of a dictionary. *)
Definition w_list : Slack.World :=
  {| Slack.fs := {[ Slack.LOGGING_FILE := Json (JArr [hello]) ]};
     Slack.clock := 0%nat; Slack.last_check_time := 0%nat; Slack.sleeps := [] |}.

(** A file without extension, and the text file under a shouted name. *)
Definition readme : Slack.FileInfo :=
  {| Slack.file_id := Some "F3"; Slack.name := Some "README";
     Slack.size := Some 120;
     Slack.url_private_download := Some "https://files.slack.com/F3/download";
     Slack.url_private := None;
     Slack.mimetype := Some "text/plain" |}.

Definition notes_upper : Slack.FileInfo :=
  {| Slack.file_id := Some "F4"; Slack.name := Some "NOTES.TXT";
     Slack.size := Some 500;
     Slack.url_private_download := Some "https://files.slack.com/F4/download";
     Slack.url_private := None;
     Slack.mimetype := None |}.

(** A web that answers every request with a 404 page. *)
Definition env_404 : Slack.Env :=
  {| Slack.isoformat := fun _ => "2025-01-01T00:00:00";
     Slack.strftime := fun _ => "20250101_000000";
     Slack.requests_get := fun _ =>
       Slack.Response 404 {| chunks := [[x4e; x6f]]; complete := true |};
     Slack.can_open := flat_folder Slack.DOWNLOAD_FOLDER;
     Slack.str_lower := Py.lower |}.

(** Histories for two channels: the first channel answers with one
    message of a person, the second one fails in the given way. *)
Definition history_c2 (failure : Slack.HistoryReply) (channel : string) (t : nat)
  : Slack.HistoryReply :=
  if String.eqb channel "C2" then failure else Slack.HistoryOk [ann_says].

(** A message with the text file attached. *)
Definition ann_sends : Slack.Message :=
  {| Slack.raw :=
       JObj [("type", JStr "message"); ("user", JStr "U1");
             ("text", JStr "see attached");
             ("ts", JStr "1735689600.000300");
             ("files",
              JArr [JObj [("id", JStr "F2"); ("name", JStr "notes.txt");
                          ("size", JNum 500);
                          ("url_private_download",
                           JStr "https://files.slack.com/F2/download");
                          ("mimetype", JStr "text/plain")]])];
     Slack.user := Some "U1";
     Slack.text := Some "see attached";
     Slack.ts := Some "1735689600.000300";
     Slack.files := [notes_txt 500] |}.

(** A Google document, and a small native file that was already there. *)
Definition plan_doc : Drive.DriveFile :=
  {| Drive.id := "f2"; Drive.name := "plan";
     Drive.createdTime := None;
     Drive.mimeType := Some "application/vnd.google-apps.document";
     Drive.size := None |}.

Definition old_txt : Drive.DriveFile :=
  {| Drive.id := "f0"; Drive.name := "old.txt";
     Drive.createdTime := None;
     Drive.mimeType := Some "text/plain";
     Drive.size := Some 12 |}.

(** A poll that lists the old file and the big one, with working
    transfers. *)
Definition poll_both : Drive.Poll :=
  {| Drive.listing := [Drive.Page [old_txt] (Some "t1"); Drive.Page [big_bin] None];
     Drive.media := media_ok |}.

(** A configuration file that names one channel as a plain string, and
    one that lacks its [output] section. *)
Definition config_one_channel : json :=
  JObj [("slack", JObj [("bot_token", JStr "xoxb-0");
                        ("target_channel", JStr "C1")]);
        ("output", JObj [("json_file", JStr "slack_events.json")]);
        ("monitoring", JObj [("poll_interval", JNum 10)])].


(** A poll whose listing carries the big file twice. *)
Definition poll_twice : Drive.Poll :=
  {| Drive.listing := [Drive.Page [big_bin; big_bin] None];
     Drive.media := media_ok |}.


(** A text file whose name names a folder that is not there. *)
Definition q1_notes : Slack.FileInfo :=
  {| Slack.file_id := Some "F5"; Slack.name := Some "q1/notes.txt";
     Slack.size := Some 500;
     Slack.url_private_download := Some "https://files.slack.com/F5/download";
     Slack.url_private := None;
     Slack.mimetype := Some "text/plain" |}.

Definition report_q1 : Drive.DriveFile :=
  {| Drive.id := "f4"; Drive.name := "reports/q1.txt";
     Drive.createdTime := None;
     Drive.mimeType := Some "text/plain";
     Drive.size := Some 12 |}.

(** A poll that lists that file, with working transfers. *)
Definition poll_report : Drive.Poll :=
  {| Drive.listing := [Drive.Page [report_q1] None]; Drive.media := media_ok |}.

End Fixtures.

(** * Properties *)

Import Store.

(** ** Sanity checks of the string operations *)

Example splitext_txt : Py.splitext "notes.TXT" = ("notes", ".TXT").
Proof. reflexivity. Qed.

Example splitext_hidden : Py.splitext "dir.d/.bashrc" = ("dir.d/.bashrc", "").
Proof. reflexivity. Qed.

Example splitext_nested : Py.splitext "archive.tar.gz" = ("archive.tar", ".gz").
Proof. reflexivity. Qed.

Example lower_mixed : Py.lower "Save THIS: ok" = "save this: ok".
Proof. reflexivity. Qed.

Example join_three : Py.join ", " ["a"; "b"; "c"] = "a, b, c".
Proof. reflexivity. Qed.

Example path_join_plain :
  Py.path_join "knowledge_base/drive" "a.txt" = "knowledge_base/drive/a.txt".
Proof. reflexivity. Qed.

Example contains_inner : Py.contains "todo:" "please todo: update docs" = true.
Proof. reflexivity. Qed.

(** ** Dictionaries *)

Lemma dict_get_set_eq k v d : dict_get k (dict_set k v d) = Some v.
Proof.
  induction d as [|[k' v'] d IH]; simpl.
  - by rewrite String.eqb_refl.
  - destruct (String.eqb k k') eqn:E; simpl; [by rewrite String.eqb_refl | by rewrite E].
Qed.

Lemma dict_get_set_ne k k' v d :
  k <> k' -> dict_get k' (dict_set k v d) = dict_get k' d.
Proof.
  intros Hne. induction d as [|[k0 v0] d IH]; simpl.
  - destruct (String.eqb k' k) eqn:E; [|done].
    apply String.eqb_eq in E. congruence.
  - destruct (String.eqb k k0) eqn:E; simpl.
    + apply String.eqb_eq in E. subst k0.
      destruct (String.eqb k' k) eqn:E'; [|done].
      apply String.eqb_eq in E'. congruence.
    + by rewrite IH.
Qed.

(** ** The trigger classifier *)

Section Classifier.
Import Slack Spec.

(** The scenario of the specification: a text with a pattern and nothing
    of higher priority. The texts of the examples are ASCII, on which
    [Py.lower] is [str.lower]. *)
Example scenario_C :
  label_of Py.lower (Some "U0BOT") "please todo: update docs" =
    Some pattern_match.
Proof. reflexivity. Qed.

Example keyword_and_pattern :
  label_of Py.lower (Some "U0BOT") "Important note: ship it" =
    Some keyword_trigger.
Proof. reflexivity. Qed.

Example mention_first :
  label_of Py.lower (Some "U0BOT") "<@U0BOT> /aisave important todo: x" =
    Some bot_mention.
Proof. reflexivity. Qed.

Example no_trigger : label_of Py.lower (Some "U0BOT") "lunch?" = None.
Proof. reflexivity. Qed.

(** The chain of the source and the list of rules agree rule by rule. *)
Lemma classify_cases lower bot_user_id text :
  label_of lower bot_user_id text =
    if mention_rule bot_user_id text then Some bot_mention
    else if command_rule lower text then Some aisave_command
    else if keyword_rule lower text then Some keyword_trigger
    else if pattern_rule lower text then Some pattern_match
    else None.
Proof.
  unfold label_of, classify, mention_rule, command_rule, keyword_rule,
    pattern_rule.
  repeat (match goal with |- context [if ?b then _ else _] =>
            destruct b eqn:?; simpl; try reflexivity end).
Qed.

(** The command token is also the first keyword, so a text with the
    token and a pattern matches a keyword and a pattern, and is labelled
    as a command, not as a keyword. *)
Lemma keyword_and_pattern_counterexample :
  keyword_rule Py.lower "/aisave todo: x" = true /\
  pattern_rule Py.lower "/aisave todo: x" = true /\
  label_of Py.lower (Some "U0BOT") "/aisave todo: x" = Some aisave_command /\
  ~ keyword_wins_as_stated Py.lower (Some "U0BOT").
Proof.
  repeat split. intros H.
  specialize (H "/aisave todo: x" eq_refl eq_refl). discriminate H.
Qed.

(** C3, amended. Whatever [str.lower] makes of the text, the classifier
    takes the rules in the order mention, command, keyword, pattern and
    stops at the first that matches, so a text gets the label of its
    highest-priority matching rule and no other. A text that matches a
    keyword and a pattern is never labelled as a pattern: it is labelled
    as a mention if the mention rule matches, else as a command if the
    command token matches, and as a keyword otherwise. *)
Theorem classify_priority (lower : string -> string)
  (bot_user_id : option string) (text : string) :
  label_of lower bot_user_id text = first_match (rules lower bot_user_id) text /\
  (forall l1 l2,
     label_of lower bot_user_id text = Some l1 ->
     label_of lower bot_user_id text = Some l2 -> l1 = l2) /\
  (keyword_rule lower text = true -> pattern_rule lower text = true ->
   label_of lower bot_user_id text <> Some pattern_match /\
   label_of lower bot_user_id text =
     Some (if mention_rule bot_user_id text then bot_mention
           else if command_rule lower text then aisave_command
           else keyword_trigger)).
Proof.
  rewrite classify_cases. split; [|split].
  - simpl. by repeat (match goal with |- context [if ?b then _ else _] =>
                        destruct b end).
  - congruence.
  - intros Hk Hp. rewrite Hk.
    destruct (mention_rule bot_user_id text), (command_rule lower text);
      split; congruence.
Qed.

Lemma classify_priority_witness :
  keyword_rule Py.lower "Important note: ship it" = true /\
  pattern_rule Py.lower "Important note: ship it" = true /\
  label_of Py.lower (Some "U0BOT") "Important note: ship it" =
    Some keyword_trigger.
Proof.
  pose proof (classify_priority Py.lower (Some "U0BOT") "Important note: ship it")
    as (_ & _ & H).
  destruct (H eq_refl eq_refl) as (_ & H').
  split; [reflexivity | split; [reflexivity | exact H']].
Defined.

End Classifier.

(** ** The persisted stores *)

Section Stores.
Import Slack Spec.

Lemma load_store_missing_or_empty path dflt w :
  missing_or_empty (fs w) path -> load_store path dflt w = dflt.
Proof. unfold load_store. by intros [-> | ->]. Qed.

Lemma load_store_json path dflt w v :
  fs w !! path = Some (Json v) -> load_store path dflt w = v.
Proof. unfold load_store. by intros ->. Qed.

(** The empty state of the events store has no count at all: the
    dictionary read from a missing file has the two keys [events] and
    [last_updated] and nothing under [total_messages]. *)
Lemma events_count_counterexample :
  missing_or_empty (fs Fixtures.w0) (JSON_FILE Fixtures.cfg0) /\
  load_existing_data Fixtures.cfg0 Fixtures.w0 =
    JObj [("events", JArr []); ("last_updated", JNull)] /\
  field "total_messages" (load_existing_data Fixtures.cfg0 Fixtures.w0) = None /\
  field "total_messages" (load_existing_data Fixtures.cfg0 Fixtures.w0) <>
    Some (JNum 0).
Proof. split; [by left|]. repeat split. discriminate. Qed.

(** C8, amended. Reading a store whose file is missing or empty gives the
    empty state and no error. The events store reads as the dictionary of
    no events and no last-updated stamp, which has no count under any
    key; the message-logging store reads as no messages, a count of zero
    and no last-updated stamp. *)
Theorem load_missing_or_empty (cfg : Config) (w : World) :
  (missing_or_empty (fs w) (JSON_FILE cfg) ->
   load_existing_data cfg w = empty_events /\
   records "events" (load_existing_data cfg w) = Some [] /\
   field "last_updated" (load_existing_data cfg w) = Some JNull /\
   forall k, k <> "events" -> k <> "last_updated" ->
     field k (load_existing_data cfg w) = None) /\
  (missing_or_empty (fs w) LOGGING_FILE ->
   load_logging_data w = empty_logging /\
   records "messages" (load_logging_data w) = Some [] /\
   field "total_messages" (load_logging_data w) = Some (JNum 0) /\
   field "last_updated" (load_logging_data w) = Some JNull).
Proof.
  unfold load_existing_data, load_logging_data.
  split; intros H; rewrite (load_store_missing_or_empty _ _ _ H); [|done].
  repeat split. intros k Hk1 Hk2. unfold field, empty_events. simpl.
  destruct (String.eqb_spec k "events"); [done|].
  by destruct (String.eqb_spec k "last_updated").
Qed.

Lemma load_missing_or_empty_witness :
  load_existing_data Fixtures.cfg0 Fixtures.w0 = empty_events /\
  load_logging_data Fixtures.w0 = empty_logging.
Proof.
  destruct (load_missing_or_empty Fixtures.cfg0 Fixtures.w0) as [H1 H2].
  split.
  - apply H1. left. reflexivity.
  - apply H2. left. reflexivity.
Defined.

Lemma append_to_inv key item store d l :
  append_to key item store = Some (d, l) ->
  exists d0 old,
    store = JObj d0 /\ dict_get key d0 = Some (JArr old) /\
    l = old ++ [item] /\ d = dict_set key (JArr l) d0.
Proof.
  unfold append_to. destruct store as [| | | | |d0]; try discriminate.
  destruct (dict_get key d0) as [[| | | |old|]|] eqn:E; try discriminate.
  intros [= <- <-]. by exists d0, old.
Qed.

Lemma append_to_records key item store old :
  records key store = Some old ->
  exists d, append_to key item store = Some (d, old ++ [item]).
Proof.
  unfold records, append_to. destruct store as [| | | | |d0]; try discriminate.
  destruct (dict_get key d0) as [[| | | |l|]|]; try discriminate.
  intros [= ->]. eauto.
Qed.

(** An append to the message log succeeds whenever the store reads as a
    dictionary with a list of messages, which the empty state is. *)
Lemma save_to_logging_succeeds env w message_data old :
  records "messages" (load_logging_data w) = Some old ->
  fst (save_to_logging env w message_data) = true.
Proof.
  intros H. unfold save_to_logging.
  destruct (append_to_records "messages" message_data _ _ H) as [d ->].
  reflexivity.
Qed.

(** C10. After a successful append to the message-logging store, the
    stored messages are the earlier ones, unchanged and in order, followed
    by the new record; [total_messages] is the length of that list; and
    [last_updated] holds the time of the append. *)
Theorem save_to_logging_appends (env : Env) (w w' : World) (message_data : json) :
  save_to_logging env w message_data = (true, w') ->
  exists old,
    records "messages" (load_logging_data w) = Some old /\
    records "messages" (load_logging_data w') = Some (old ++ [message_data]) /\
    field "total_messages" (load_logging_data w') =
      Some (JNum (Z.of_nat (length (old ++ [message_data])))) /\
    field "last_updated" (load_logging_data w') =
      Some (JStr (isoformat env (clock w))).
Proof.
  unfold save_to_logging.
  destruct (append_to "messages" message_data (load_logging_data w))
    as [[d1 messages]|] eqn:E; [|discriminate].
  apply append_to_inv in E as (d0 & old & Hload & Hget & -> & ->).
  simpl. intros [= <-]. exists old.
  unfold load_logging_data at 2 3 4.
  erewrite load_store_json by (simpl; apply lookup_insert_eq).
  rewrite Hload. unfold records, field. simpl. rewrite Hget.
  split; [done|].
  rewrite (dict_get_set_ne "total_messages" "messages") by discriminate.
  rewrite (dict_get_set_ne "last_updated" "messages") by discriminate.
  rewrite (dict_get_set_ne "total_messages" "last_updated") by discriminate.
  by rewrite !dict_get_set_eq.
Qed.

Lemma save_to_logging_appends_witness :
  exists old,
    records "messages" (load_logging_data Fixtures.w0) = Some old /\
    records "messages"
      (load_logging_data (snd (save_to_logging Fixtures.env0 Fixtures.w0 Fixtures.hello)))
    = Some (old ++ [Fixtures.hello]).
Proof.
  destruct (save_to_logging_appends Fixtures.env0 Fixtures.w0
              (snd (save_to_logging Fixtures.env0 Fixtures.w0 Fixtures.hello))
              Fixtures.hello eq_refl) as (old & H1 & H2 & _).
  exists old. split; assumption.
Defined.

(** A successful or possible append to the events store adds the event
    after the events already stored. *)
Lemma save_to_json_appends cfg env w data old :
  records "events" (load_existing_data cfg w) = Some old ->
  records "events" (load_existing_data cfg (snd (save_to_json cfg env w data))) =
    Some (old ++ [data]).
Proof.
  intros Hold. unfold save_to_json.
  destruct (append_to_records "events" data _ _ Hold) as [d Happ].
  rewrite Happ.
  apply append_to_inv in Happ as (d0 & old' & Hload & Hget & _ & ->).
  simpl. unfold load_existing_data.
  erewrite load_store_json by (simpl; apply lookup_insert_eq).
  unfold records.
  rewrite (dict_get_set_ne "last_updated" "events") by discriminate.
  by rewrite dict_get_set_eq.
Qed.

(** The trigger pass saves at most one event for a message, and the
    event carries the label of the classifier. *)
Lemma check_message_saves_at_most_one cfg env bot_user_id channel w message old :
  records "events" (load_existing_data cfg w) = Some old ->
  let w' := check_message cfg env bot_user_id channel w message in
  records "events" (load_existing_data cfg w') = Some old \/
  exists trigger_type event,
    label_of (str_lower env) bot_user_id (default "" (text message)) =
      Some trigger_type /\
    field "type" event = Some (JStr (trigger_name trigger_type)) /\
    records "events" (load_existing_data cfg w') = Some (old ++ [event]).
Proof.
  intros Hold. unfold check_message, label_of.
  destruct (bool_decide _); [by left|].
  destruct (classify (str_lower env) bot_user_id (default "" (text message)))
    as [[trigger_type trigger_details]|]; [|by left].
  right. exists trigger_type. eexists. split; [done|]. split; cycle 1.
  { lazy beta iota zeta delta [now].
    apply save_to_json_appends. exact Hold. }
  reflexivity.
Qed.

End Stores.

(** ** The downloaders *)

Section Downloaders.
Import Spec.

Lemma write_chunks_lookup path cs (fs : gmap string content) b :
  fs !! path = Some (Raw b) ->
  write_chunks path cs fs !! path = Some (Raw (b ++ concat cs)).
Proof.
  revert fs b. induction cs as [|chunk cs IH]; intros fs b Hb; simpl.
  - by rewrite app_nil_r.
  - rewrite Hb. simpl.
    rewrite (IH _ (b ++ chunk)) by apply lookup_insert_eq.
    by rewrite <- app_assoc.
Qed.

Lemma write_chunks_other path cs (fs : gmap string content) p :
  p <> path -> write_chunks path cs fs !! p = fs !! p.
Proof.
  intros Hne. revert fs. induction cs as [|chunk cs IH]; intros fs; simpl.
  - done.
  - rewrite IH. by apply lookup_insert_ne.
Qed.

(** What is at the final path once the chunks that arrived are written. *)
Lemma written_at_final_path path cs (fs : gmap string content) :
  write_chunks path cs (open_wb path fs) !! path = Some (Raw (concat cs)).
Proof.
  unfold open_wb.
  by rewrite (write_chunks_lookup _ _ _ []) by apply lookup_insert_eq.
Qed.

(** A Slack download and a Drive download that break after the first
    chunk: each reports failure and leaves the two bytes that arrived at
    the final path. *)
Lemma partial_file_counterexample :
  fst (Slack.download_file Fixtures.env_drop Fixtures.w0 (Fixtures.notes_txt 500))
    = None /\
  Slack.fs (snd (Slack.download_file Fixtures.env_drop Fixtures.w0
                   (Fixtures.notes_txt 500)))
    !! "knowledge_base/slack/20250101_000000_notes.txt" = Some (Raw [x41; x42]) /\
  fst (Drive.download_file Fixtures.media_drop Fixtures.d0 "f1" "big.bin"
         "application/octet-stream") = false /\
  Drive.fs (snd (Drive.download_file Fixtures.media_drop Fixtures.d0 "f1"
                   "big.bin" "application/octet-stream"))
    !! "knowledge_base/drive/big.bin" = Some (Raw [x41; x42]).
Proof. repeat split; by vm_compute. Qed.

(** A file whose name names a folder that is not there cannot be
    opened: nothing is transferred into it and nothing is left behind. *)
Example unopenable_slack :
  fst (Slack.download_file Fixtures.env0 Fixtures.w0 Fixtures.q1_notes) = None /\
  Slack.fs (snd (Slack.download_file Fixtures.env0 Fixtures.w0 Fixtures.q1_notes))
    = Slack.fs Fixtures.w0.
Proof. split; reflexivity. Qed.

Example unopenable_drive :
  Drive.download_file Fixtures.media_ok Fixtures.d0 "f4" "reports/q1.txt"
    "text/plain" = (false, Fixtures.d0).
Proof. reflexivity. Qed.

(** C2, amended. When a download breaks in mid-stream, that is, after
    its file was opened at the final path, the downloader returns its
    failure result, and the bytes that had arrived stay in the file at
    the final path: neither monitor writes to a temporary path or removes
    the file. *)
Theorem failed_download_leaves_partial :
  (forall env w file_info body,
     Slack.gate file_info = Slack.proceed ->
     Slack.requests_get env (default "" (Slack.file_url_of file_info)) =
       Slack.Response 200 body ->
     Slack.can_open env (slack_final_path env w file_info) = true ->
     complete body = false ->
     fst (Slack.download_file env w file_info) = None /\
     Slack.fs (snd (Slack.download_file env w file_info))
       !! slack_final_path env w file_info = Some (Raw (concat (chunks body)))) /\
  (forall media w file_id file_name mime_type request save_name,
     Drive.gate file_id file_name mime_type = Some (request, save_name) ->
     Drive.can_open w (drive_final_path save_name) = true ->
     complete (media request) = false ->
     fst (Drive.download_file media w file_id file_name mime_type) = false /\
     Drive.fs (snd (Drive.download_file media w file_id file_name mime_type))
       !! drive_final_path save_name =
       Some (Raw (concat (chunks (media request))))).
Proof.
  split.
  - intros env w file_info body Hadm Hget Hopen Hc.
    unfold Slack.download_file. rewrite Hadm, Hget. simpl.
    unfold slack_final_path in Hopen. rewrite Hopen, Hc. simpl.
    split; [done|]. apply written_at_final_path.
  - intros media w file_id file_name mime_type request save_name Hadm Hopen Hc.
    unfold Drive.download_file. rewrite Hadm.
    unfold drive_final_path in Hopen. rewrite Hopen, Hc. simpl.
    split; [done|]. apply written_at_final_path.
Qed.

Lemma failed_download_leaves_partial_witness :
  Slack.fs (snd (Slack.download_file Fixtures.env_drop Fixtures.w0
                   (Fixtures.notes_txt 500)))
    !! slack_final_path Fixtures.env_drop Fixtures.w0 (Fixtures.notes_txt 500)
    = Some (Raw [x41; x42]) /\
  Drive.fs (snd (Drive.download_file Fixtures.media_drop Fixtures.d0 "f1"
                   "big.bin" "application/octet-stream"))
    !! drive_final_path "big.bin" = Some (Raw [x41; x42]).
Proof.
  destruct failed_download_leaves_partial as [HS HD]. split.
  - apply (HS Fixtures.env_drop Fixtures.w0 (Fixtures.notes_txt 500)
             {| chunks := [[x41; x42]]; complete := false |});
      reflexivity.
  - apply (HD Fixtures.media_drop Fixtures.d0 "f1" "big.bin"
             "application/octet-stream" (Drive.get_media "f1") "big.bin");
      reflexivity.
Defined.

End Downloaders.

(** ** The download gates *)

Section Gates.
Import Spec.

(** *** Drive: virtual documents *)

Example scenario_B :
  Drive.gate "f2" "budget" "application/vnd.google-apps.spreadsheet" =
    Some (Drive.export_media "f2"
            "application/vnd.openxmlformats-officedocument.spreadsheetml.sheet",
          "budget.xlsx").
Proof. reflexivity. Qed.

Example unmapped_form :
  Drive.gate "f3" "survey" "application/vnd.google-apps.form" = None.
Proof. reflexivity. Qed.

Lemma export_formats_lookup mime_type export_mime :
  Drive.export_formats !! mime_type = Some export_mime ->
  exists ext,
    (mime_type, (export_mime, ext)) ∈ export_table /\
    forall file_name,
      Drive.export_name file_name mime_type = file_name +:+ ext.
Proof.
  intros H. apply elem_of_list_to_map_2 in H.
  repeat (apply elem_of_cons in H as [[= -> ->]|H]);
    [exists ".docx" | exists ".xlsx" | exists ".pptx" | by apply elem_of_nil in H];
    (split; [unfold export_table; set_solver | reflexivity]).
Qed.

(** C6. For a virtual document the gate looks the subtype up in the export
    table: a mapped subtype goes on as an export to the mapped MIME type
    and the saved name gains the extension of that format, so that the
    download, if the file of that name can be opened, runs the export
    request and saves what arrives under that name; an unmapped subtype
    is refused, and the download returns failure having run no request
    and written nothing. *)
Theorem virtual_document_gate (file_id file_name mime_type : string) :
  Py.startswith mime_type "application/vnd.google-apps" = true ->
  match Drive.export_formats !! mime_type with
  | Some export_mime =>
      exists ext,
        (mime_type, (export_mime, ext)) ∈ export_table /\
        Drive.gate file_id file_name mime_type =
          Some (Drive.export_media file_id export_mime, file_name +:+ ext) /\
        forall media w,
          Drive.can_open w (drive_final_path (file_name +:+ ext)) = true ->
          let w' :=
            snd (Drive.download_file media w file_id file_name mime_type) in
          Drive.fetched w' =
            Drive.fetched w ++ [Drive.export_media file_id export_mime] /\
          Drive.fs w' !! drive_final_path (file_name +:+ ext) =
            Some (Raw (concat
                         (chunks (media (Drive.export_media file_id export_mime)))))
  | None =>
      Drive.gate file_id file_name mime_type = None /\
      forall media w,
        Drive.download_file media w file_id file_name mime_type = (false, w)
  end.
Proof.
  intros Hv. unfold Drive.download_file, Drive.gate. rewrite Hv.
  destruct (Drive.export_formats !! mime_type) as [export_mime|] eqn:E.
  - destruct (export_formats_lookup _ _ E) as (ext & Hin & Hname).
    exists ext. rewrite Hname. repeat split; try done.
    + unfold drive_final_path in H. rewrite H. reflexivity.
    + unfold drive_final_path in H. rewrite H. apply written_at_final_path.
  - done.
Qed.

Lemma virtual_document_gate_witness :
  Drive.gate "f2" "budget" "application/vnd.google-apps.spreadsheet" =
    Some (Drive.export_media "f2"
            "application/vnd.openxmlformats-officedocument.spreadsheetml.sheet",
          "budget.xlsx") /\
  Drive.fs
    (snd (Drive.download_file Fixtures.media_ok Fixtures.d0 "f2" "budget"
            "application/vnd.google-apps.spreadsheet"))
    !! drive_final_path "budget.xlsx" = Some (Raw [x41; x42; x43]) /\
  Drive.download_file Fixtures.media_ok Fixtures.d0 "f3" "survey"
    "application/vnd.google-apps.form" = (false, Fixtures.d0).
Proof.
  split; [|split].
  - pose proof (virtual_document_gate "f2" "budget"
                  "application/vnd.google-apps.spreadsheet" eq_refl) as H.
    change (Drive.export_formats !! "application/vnd.google-apps.spreadsheet")
      with (Some "application/vnd.openxmlformats-officedocument.spreadsheetml.sheet")
      in H.
    destruct H as (ext & Hin & -> & _). f_equal. f_equal.
    unfold export_table in Hin.
    repeat (apply elem_of_cons in Hin as [[= <-]|Hin]); try reflexivity.
    by apply elem_of_nil in Hin.
  - pose proof (virtual_document_gate "f2" "budget"
                  "application/vnd.google-apps.spreadsheet" eq_refl) as H.
    change (Drive.export_formats !! "application/vnd.google-apps.spreadsheet")
      with (Some "application/vnd.openxmlformats-officedocument.spreadsheetml.sheet")
      in H.
    destruct H as (ext & Hin & _ & H).
    assert (Hext : ext = ".xlsx").
    { unfold export_table in Hin.
      repeat (apply elem_of_cons in Hin as [[= <-]|Hin]); try reflexivity.
      by apply elem_of_nil in Hin. }
    rewrite Hext in H.
    exact (proj2 (H Fixtures.media_ok Fixtures.d0 eq_refl)).
  - pose proof (virtual_document_gate "f3" "survey"
                  "application/vnd.google-apps.form" eq_refl) as H.
    change (Drive.export_formats !! "application/vnd.google-apps.form")
      with (@None string) in H.
    apply H.
Defined.

(** *** Slack: size, extension, link *)

Example scenario_A : Slack.gate (Fixtures.notes_txt 500) = Slack.proceed.
Proof. reflexivity. Qed.

Example at_the_ceiling :
  Slack.gate (Fixtures.notes_txt Slack.MAX_FILE_SIZE) = Slack.proceed.
Proof. reflexivity. Qed.

Example one_byte_over :
  Slack.gate (Fixtures.notes_txt (Slack.MAX_FILE_SIZE + 1)) =
    Slack.reject Slack.too_large.
Proof. reflexivity. Qed.

(** A file well under the ceiling is refused all the same when its
    extension is not on the list, and the Drive monitor, which has no
    ceiling, fetches a terabyte. *)
Lemma size_rule_counterexample :
  Slack.file_size_of Fixtures.setup_exe <= Slack.MAX_FILE_SIZE /\
  Slack.gate Fixtures.setup_exe = Slack.reject Slack.unsupported_extension /\
  ~ size_rule_as_stated Fixtures.setup_exe /\
  Drive.size Fixtures.big_bin = Some 1000000000000 /\
  fst (Drive.download_file Fixtures.media_ok Fixtures.d0
         (Drive.id Fixtures.big_bin) (Drive.name Fixtures.big_bin)
         (default "" (Drive.mimeType Fixtures.big_bin))) = true.
Proof.
  split; [by vm_compute|]. split; [reflexivity|]. split; [|split; reflexivity].
  intros [H _]. specialize (H ltac:(by vm_compute)). discriminate H.
Qed.

(** C4, amended. In the Slack monitor a file is refused as too large
    exactly when its size exceeds the ceiling of 25 MiB; a file at or
    below the ceiling passes the size check and is accepted exactly when
    its extension is on the list and it has a download link, so a listed
    file with a link is accepted at the ceiling and refused one byte
    over. The Drive monitor has no ceiling: a native file is always
    passed on to the download. *)
Theorem size_gate (file_info : Slack.FileInfo) :
  (Slack.gate file_info = Slack.reject Slack.too_large <->
   Slack.file_size_of file_info > Slack.MAX_FILE_SIZE) /\
  (Slack.file_size_of file_info <= Slack.MAX_FILE_SIZE ->
   (Slack.gate file_info = Slack.proceed <->
    Slack.in_list (Slack.resolved_extension file_info)
      Slack.SUPPORTED_EXTENSIONS = true /\
    Slack.truthy (Slack.file_url_of file_info) = true)) /\
  (Slack.file_size_of file_info = Slack.MAX_FILE_SIZE + 1 ->
   Slack.gate file_info = Slack.reject Slack.too_large) /\
  (forall file_id file_name mime_type,
     Py.startswith mime_type "application/vnd.google-apps" = false ->
     Drive.gate file_id file_name mime_type =
       Some (Drive.get_media file_id, file_name)).
Proof.
  unfold Slack.gate.
  destruct (Z.gtb_spec (Slack.file_size_of file_info) Slack.MAX_FILE_SIZE)
    as [Hgt|Hle].
  - repeat split; try done; try lia.
    intros ? ? ? Hn. unfold Drive.gate. by rewrite Hn.
  - destruct (Slack.in_list _ _), (Slack.truthy _); simpl;
      (split; [split; [discriminate | lia]|]);
      (split; [intros _; split; [try discriminate; done | by intros [? ?]]|]);
      (split; [lia|]);
      intros ? ? ? Hn; unfold Drive.gate; by rewrite Hn.
Qed.

Lemma size_gate_witness :
  Slack.gate (Fixtures.notes_txt Slack.MAX_FILE_SIZE) = Slack.proceed /\
  Slack.gate (Fixtures.notes_txt (Slack.MAX_FILE_SIZE + 1)) =
    Slack.reject Slack.too_large.
Proof.
  split.
  - destruct (size_gate (Fixtures.notes_txt Slack.MAX_FILE_SIZE))
      as (_ & H & _).
    apply H; [by vm_compute | split; reflexivity].
  - destruct (size_gate (Fixtures.notes_txt (Slack.MAX_FILE_SIZE + 1)))
      as (_ & _ & H & _).
    apply H. reflexivity.
Defined.

(** Two files that agree on size and extension and differ only in
    whether the API sent a link get different decisions. *)
Lemma gate_purity_counterexample :
  Slack.file_size_of (Fixtures.notes_txt 500) =
    Slack.file_size_of (Fixtures.notes_txt_no_url 500) /\
  Slack.resolved_extension (Fixtures.notes_txt 500) =
    Slack.resolved_extension (Fixtures.notes_txt_no_url 500) /\
  Slack.gate (Fixtures.notes_txt 500) = Slack.proceed /\
  Slack.gate (Fixtures.notes_txt_no_url 500) =
    Slack.reject Slack.no_download_url /\
  ~ settled_by_size_and_extension.
Proof.
  repeat split.
  intros H.
  specialize (H (Fixtures.notes_txt 500) (Fixtures.notes_txt_no_url 500)
                eq_refl eq_refl).
  discriminate H.
Qed.

(** C5, amended. The decision of the gate is a function of the size, the
    resolved extension and the presence of a download link: two files that
    agree on these three get the same decision, whatever their other
    fields. *)
Theorem gate_purity (f g : Slack.FileInfo) :
  Slack.file_size_of f = Slack.file_size_of g ->
  Slack.resolved_extension f = Slack.resolved_extension g ->
  Slack.truthy (Slack.file_url_of f) = Slack.truthy (Slack.file_url_of g) ->
  Slack.gate f = Slack.gate g.
Proof. unfold Slack.gate. by intros -> -> ->. Qed.

Lemma gate_purity_witness :
  Slack.gate Fixtures.setup_exe =
    Slack.gate
      {| Slack.file_id := Some "F9"; Slack.name := Some "other/RUN.EXE";
         Slack.size := Some 10;
         Slack.url_private_download := None;
         Slack.url_private := Some "https://files.slack.com/F9";
         Slack.mimetype := None |}.
Proof. apply gate_purity; reflexivity. Defined.

End Gates.

(** ** Messages of the bot itself *)

Section OwnMessages.
Import Slack Spec.

Lemma log_messages_app env bot_user_id w l1 l2 :
  log_messages env bot_user_id w (l1 ++ l2) =
    log_messages env bot_user_id (log_messages env bot_user_id w l1) l2.
Proof. revert w. induction l1 as [|m l1 IH]; intros w; simpl; [done | apply IH]. Qed.

Lemma check_messages_app cfg env bot_user_id channel w l1 l2 :
  check_messages cfg env bot_user_id channel w (l1 ++ l2) =
    check_messages cfg env bot_user_id channel
      (check_messages cfg env bot_user_id channel w l1) l2.
Proof. revert w. induction l1 as [|m l1 IH]; intros w; simpl; [done | apply IH]. Qed.

Lemma scan_messages_app env bot_user_id st l1 l2 :
  scan_messages env bot_user_id st (l1 ++ l2) =
    scan_messages env bot_user_id (scan_messages env bot_user_id st l1) l2.
Proof. revert st. induction l1 as [|m l1 IH]; intros st; simpl; [done | apply IH]. Qed.

Example bot_message_not_logged :
  log_message Fixtures.env0 (Some "U0BOT") Fixtures.w0 Fixtures.bot_says
    = Fixtures.w0.
Proof. reflexivity. Qed.

Example person_message_logged :
  records "messages"
    (load_logging_data
       (log_message Fixtures.env0 (Some "U0BOT") Fixtures.w0 Fixtures.ann_says))
  = Some [JObj [("timestamp", JStr "2025-01-01T00:00:00");
                ("user_id", JStr "U1");
                ("text_usethisforQueries", JStr "this is important")]].
Proof. by vm_compute. Qed.

(** C9. A message whose author is the monitoring bot is skipped by each
    of the three passes over messages: the logging pass, the trigger pass
    and the startup scan of the history leave the world as it is (nothing
    logged, no event saved, no file fetched or written), and each pass
    ends as it would had the message not been listed. *)
Theorem own_messages_ignored (cfg : Config) (env : Env) (bot : string)
  (message : Message) :
  user message = Some bot ->
  (forall w, log_message env (Some bot) w message = w) /\
  (forall channel w, check_message cfg env (Some bot) channel w message = w) /\
  (forall st, scan_message env (Some bot) st message = st) /\
  (forall w before after,
     log_messages env (Some bot) w (before ++ message :: after) =
     log_messages env (Some bot) w (before ++ after)) /\
  (forall channel w before after,
     check_messages cfg env (Some bot) channel w (before ++ message :: after) =
     check_messages cfg env (Some bot) channel w (before ++ after)) /\
  (forall st before after,
     scan_messages env (Some bot) st (before ++ message :: after) =
     scan_messages env (Some bot) st (before ++ after)).
Proof.
  intros Hu.
  assert (Hlog : forall w, log_message env (Some bot) w message = w).
  { intros w. unfold log_message, from_bot. by rewrite bool_decide_eq_true_2. }
  assert (Hchk : forall channel w,
             check_message cfg env (Some bot) channel w message = w).
  { intros channel w. unfold check_message.
    rewrite bool_decide_eq_true_2; [done | by rewrite Hu]. }
  assert (Hscan : forall st, scan_message env (Some bot) st message = st).
  { intros [w [a b]]. unfold scan_message, from_bot.
    by rewrite bool_decide_eq_true_2. }
  repeat split; try done.
  - intros. rewrite !log_messages_app. simpl. by rewrite Hlog.
  - intros. rewrite !check_messages_app. simpl. by rewrite Hchk.
  - intros. rewrite !scan_messages_app. simpl. by rewrite Hscan.
Qed.

Lemma own_messages_ignored_witness :
  log_messages Fixtures.env0 (Some "U0BOT") Fixtures.w0
    ([Fixtures.ann_says] ++ Fixtures.bot_says :: []) =
  log_messages Fixtures.env0 (Some "U0BOT") Fixtures.w0
    ([Fixtures.ann_says] ++ []).
Proof.
  destruct (own_messages_ignored Fixtures.cfg0 Fixtures.env0 "U0BOT"
              Fixtures.bot_says eq_refl) as (_ & _ & _ & H & _).
  apply H.
Defined.

End OwnMessages.

(** ** A cycle whose listing fails *)

Section FailedListing.
Import Spec.








End FailedListing.

(** ** The known set of the Drive monitor *)

Section Dedup.
Import Spec.

Example first_sight_downloads :
  "f1" ∈ fst (Drive.poll (∅, Fixtures.d0) Fixtures.poll_ok).
Proof. by vm_compute. Qed.

Example failure_not_known :
  fst (Drive.poll (∅, Fixtures.d0) Fixtures.poll_drop) = ∅.
Proof. by vm_compute. Qed.

(** A file whose name names a folder that is not there: its download
    fails at the opening of the file, so it stays unknown and is new
    again at the next poll. *)
Example unopenable_stays_new :
  fst (Drive.poll (∅, Fixtures.d0) Fixtures.poll_report) = ∅ /\
  "f4" ∈ Drive.new_file_ids
           (fst (Drive.poll (∅, Fixtures.d0) Fixtures.poll_report))
           Fixtures.poll_report.
Proof. split; by vm_compute. Qed.

Lemma download_file_ok media w file :
  fst (Drive.download_file media w (Drive.id file) (Drive.name file)
         (default "" (Drive.mimeType file))) =
    download_ok (Drive.can_open w) media file.
Proof.
  unfold Drive.download_file, download_ok, drive_final_path.
  destruct (Drive.gate _ _ _) as [[request save_name]|]; [|done].
  by destruct (Drive.can_open w _).
Qed.

(** The downloads do not change which paths can be opened. *)
Lemma download_file_can_open media w file_id file_name mime_type :
  Drive.can_open (snd (Drive.download_file media w file_id file_name mime_type)) =
    Drive.can_open w.
Proof.
  unfold Drive.download_file.
  destruct (Drive.gate _ _ _) as [[request save_name]|]; [|done].
  by destruct (Drive.can_open w _).
Qed.

Lemma succeeded_in_subset can_open media (new_file_ids : gset string)
  current_files :
  succeeded_in can_open media new_file_ids current_files ⊆ new_file_ids.
Proof.
  unfold succeeded_in.
  induction current_files as [|file rest IH]; simpl; [set_solver|].
  destruct (bool_decide (Drive.id file ∈ new_file_ids)) eqn:E; simpl; [|done].
  apply bool_decide_eq_true_1 in E.
  destruct (download_ok can_open media file); simpl; [set_solver | done].
Qed.

(** The loop of one poll adds to the known set exactly the new ids whose
    download succeeds. *)
Lemma process_new_known media (new_file_ids known_files : gset string) w
  current_files :
  fst (Drive.process_new media new_file_ids known_files w current_files) =
    known_files ∪
    succeeded_in (Drive.can_open w) media new_file_ids current_files.
Proof.
  unfold succeeded_in.
  revert known_files w.
  induction current_files as [|file rest IH]; intros known_files w; simpl.
  - set_solver.
  - destruct (decide (Drive.id file ∈ new_file_ids)) as [Hin|Hout].
    + rewrite (bool_decide_eq_true_2 _ Hin). simpl.
      rewrite <- (download_file_ok media w file).
      pose proof (download_file_can_open media w (Drive.id file)
                    (Drive.name file) (default "" (Drive.mimeType file))) as Ho.
      destruct (Drive.download_file media w _ _ _) as [success w1].
      simpl in *. rewrite IH, Ho. destruct success; simpl; set_solver.
    + rewrite (bool_decide_eq_false_2 _ Hout). simpl. apply IH.
Qed.

Lemma new_file_ids_listed (known_files : gset string) p :
  Drive.new_file_ids known_files p = listed p ∖ known_files.
Proof.
  unfold Drive.new_file_ids, listed.
  destruct (Drive.get_all_files _ _); set_solver.
Qed.

Lemma succeeded_subset (st : gset string * Drive.World) p :
  succeeded st p ⊆ Drive.new_file_ids (fst st) p.
Proof.
  unfold succeeded.
  destruct (Drive.get_all_files _ _); [apply succeeded_in_subset | set_solver].
Qed.

(** After a poll the known set is the earlier one and the ids downloaded
    successfully in the poll. *)
Lemma poll_known (st : gset string * Drive.World) p :
  fst (Drive.poll st p) = fst st ∪ succeeded st p.
Proof.
  destruct st as [known_files w]. unfold Drive.poll, succeeded. simpl.
  unfold Drive.new_file_ids.
  destruct (Drive.get_all_files _ _) as [current_files|]; [|set_solver].
  destruct (decide _) as [Hempty|Hnew]; simpl.
  - pose proof (succeeded_in_subset (Drive.can_open w) (Drive.media p)
                  (list_to_set (Drive.id <$> current_files) ∖ known_files)
                  current_files) as Hsub.
    rewrite Hempty in Hsub. rewrite Hempty. set_solver.
  - rewrite <- process_new_known with (w := w).
    by destruct (Drive.process_new _ _ _ _ _).
Qed.

Lemma poll_loop_mono (st : gset string * Drive.World) polls :
  fst st ⊆ fst (Drive.poll_loop st polls).
Proof.
  revert st. induction polls as [|p rest IH]; intros st; simpl; [done|].
  etrans; [|apply IH]. rewrite poll_known. set_solver.
Qed.

Lemma run_log_disjoint_known (st : gset string * Drive.World) polls j
  (N S : gset string) :
  run_log st polls !! j = Some (N, S) -> N ## fst st.
Proof.
  revert st j. induction polls as [|p rest IH]; intros st j; [done|].
  destruct j as [|j]; simpl.
  - intros [= <- <-]. rewrite new_file_ids_listed. set_solver.
  - intros H. apply IH in H. rewrite poll_known in H. set_solver.
Qed.

(** In a run whose two polls list the same file while its transfer
    breaks, the file is in the new partition of both polls, and it is not
    known at the end. *)
Lemma dedup_counterexample :
  (exists N1 N2 : gset string,
     Drive.partitions (∅, Fixtures.d0) [Fixtures.poll_drop; Fixtures.poll_drop]
       = [N1; N2] /\ "f1" ∈ N1 /\ "f1" ∈ N2) /\
  ~ at_most_one_partition
      (Drive.partitions (∅, Fixtures.d0) [Fixtures.poll_drop; Fixtures.poll_drop]) /\
  "f1" ∉ fst (Drive.poll_loop (∅, Fixtures.d0)
                [Fixtures.poll_drop; Fixtures.poll_drop]).
Proof.
  split; [|split].
  - eexists _, _. split; [reflexivity|]. split; by vm_compute.
  - intros H.
    eapply (H 0%nat 1%nat _ _ "f1"); [done | reflexivity | reflexivity | |];
      by vm_compute.
  - by vm_compute.
Qed.

(** C1, amended. The known set of a run only grows; a poll adds to it
    exactly the ids of its new partition whose download succeeded, which
    takes a type the gate lets through, a file that can be opened and a
    transfer that completes; an id downloaded successfully in one poll is
    in the new partition of no later poll; and an id whose download
    failed stays unknown and is in the new partition of the next poll
    again if that poll lists it. *)
Theorem dedup_after_success (st : gset string * Drive.World)
  (polls : list Drive.Poll) :
  fst st ⊆ fst (Drive.poll_loop st polls) /\
  (forall p, fst (Drive.poll st p) = fst st ∪ succeeded st p) /\
  (forall i j (Ni Si Nj Sj : gset string),
     (i < j)%nat ->
     run_log st polls !! i = Some (Ni, Si) ->
     run_log st polls !! j = Some (Nj, Sj) ->
     Si ⊆ Ni /\ Si ## Nj) /\
  (forall p q (x : string),
     x ∈ Drive.new_file_ids (fst st) p ->
     x ∉ succeeded st p ->
     x ∈ listed q ->
     x ∈ Drive.new_file_ids (fst (Drive.poll st p)) q).
Proof.
  split; [apply poll_loop_mono|]. split; [apply poll_known|]. split.
  - revert st. induction polls as [|p rest IH]; intros st i j Ni Si Nj Sj Hlt;
      [done|].
    destruct i as [|i], j as [|j]; try lia; simpl.
    + intros [= <- <-] Hj. split; [apply succeeded_subset|].
      apply run_log_disjoint_known in Hj. rewrite poll_known in Hj. set_solver.
    + apply IH. lia.
  - intros p q x Hnew Hfail Hq.
    rewrite new_file_ids_listed in Hnew. rewrite new_file_ids_listed, poll_known.
    set_solver.
Qed.

Lemma dedup_after_success_witness :
  "f1" ∈ Drive.new_file_ids
           (fst (Drive.poll (∅, Fixtures.d0) Fixtures.poll_drop))
           Fixtures.poll_ok /\
  (forall Nj Sj : gset string,
     run_log (∅, Fixtures.d0) [Fixtures.poll_ok; Fixtures.poll_ok] !! 1%nat
       = Some (Nj, Sj) -> "f1" ∉ Nj).
Proof.
  split.
  - destruct (dedup_after_success (∅, Fixtures.d0) []) as (_ & _ & _ & H).
    apply H; by vm_compute.
  - intros Nj Sj Hj.
    destruct (dedup_after_success (∅, Fixtures.d0)
                [Fixtures.poll_ok; Fixtures.poll_ok]) as (_ & _ & H & _).
    destruct (H 0%nat 1%nat _ _ Nj Sj ltac:(lia) eq_refl Hj) as [_ Hd].
    intros Hin. apply (Hd "f1"); [by vm_compute | exact Hin].
Defined.

End Dedup.

(** * Further properties of the code *)

(** ** The stores, continued *)

Section MoreStores.
Import Slack Spec.

Lemma append_to_none key item store :
  records key store = None -> append_to key item store = None.
Proof.
  unfold records, append_to. destruct store as [| | | | |d]; try done.
  by destruct (dict_get key d) as [[| | | |l|]|].
Qed.


(** X1. A successful append to the events store puts the event after the
    events already stored and stamps [last_updated]; every other key of
    the stored dictionary is written back as it was read. *)
Theorem save_to_json_keeps_rest (cfg : Config) (env : Env) (w w' : World)
  (data : json) :
  save_to_json cfg env w data = (true, w') ->
  exists old,
    records "events" (load_existing_data cfg w) = Some old /\
    records "events" (load_existing_data cfg w') = Some (old ++ [data]) /\
    field "last_updated" (load_existing_data cfg w') =
      Some (JStr (isoformat env (clock w))) /\
    forall k, k <> "events" -> k <> "last_updated" ->
      field k (load_existing_data cfg w') = field k (load_existing_data cfg w).
Proof.
  unfold save_to_json.
  destruct (append_to "events" data (load_existing_data cfg w))
    as [[d1 events]|] eqn:E; [|discriminate].
  apply append_to_inv in E as (d0 & old & Hload & Hget & -> & ->).
  simpl. intros [= <-]. exists old.
  unfold load_existing_data at 2 3 4.
  erewrite load_store_json by (simpl; apply lookup_insert_eq).
  rewrite Hload. unfold records, field. rewrite Hget.
  split; [done|].
  rewrite (dict_get_set_ne "last_updated" "events") by discriminate.
  rewrite !dict_get_set_eq. repeat split.
  intros k Hk1 Hk2. by rewrite !dict_get_set_ne.
Qed.

Lemma save_to_json_keeps_rest_witness :
  exists old,
    records "events" (load_existing_data Fixtures.cfg0 Fixtures.w0) = Some old /\
    records "events"
      (load_existing_data Fixtures.cfg0
         (snd (save_to_json Fixtures.cfg0 Fixtures.env0 Fixtures.w0 Fixtures.hello)))
    = Some (old ++ [Fixtures.hello]).
Proof.
  destruct (save_to_json_keeps_rest Fixtures.cfg0 Fixtures.env0 Fixtures.w0
              (snd (save_to_json Fixtures.cfg0 Fixtures.env0 Fixtures.w0
                      Fixtures.hello))
              Fixtures.hello eq_refl) as (old & H1 & H2 & _).
  exists old. split; assumption.
Defined.

(** X2. When the store decodes to something other than a dictionary with
    a list under its key, the save returns [False] and nothing changes:
    the file is not rewritten and the record is dropped. *)
Theorem save_needs_a_list (cfg : Config) (env : Env) (w : World) (data : json) :
  (records "messages" (load_logging_data w) = None ->
   save_to_logging env w data = (false, w)) /\
  (records "events" (load_existing_data cfg w) = None ->
   save_to_json cfg env w data = (false, w)).
Proof.
  split; intros H.
  - unfold save_to_logging. by rewrite (append_to_none _ _ _ H).
  - unfold save_to_json. by rewrite (append_to_none _ _ _ H).
Qed.

Lemma save_needs_a_list_witness :
  save_to_logging Fixtures.env0 Fixtures.w_list Fixtures.hello =
    (false, Fixtures.w_list).
Proof.
  apply (save_needs_a_list Fixtures.cfg0 Fixtures.env0 Fixtures.w_list
           Fixtures.hello).
  reflexivity.
Defined.



(** X4. A save writes one file only: every path other than the store's
    own holds what it held before, whether the save succeeds or not. *)
Theorem save_writes_one_file (cfg : Config) (env : Env) (w : World)
  (data : json) (p : string) :
  (p <> LOGGING_FILE ->
   fs (snd (save_to_logging env w data)) !! p = fs w !! p) /\
  (p <> JSON_FILE cfg ->
   fs (snd (save_to_json cfg env w data)) !! p = fs w !! p).
Proof.
  split; intros Hp.
  - unfold save_to_logging.
    destruct (append_to _ _ _) as [[d1 messages]|]; [|done].
    simpl. by rewrite lookup_insert_ne.
  - unfold save_to_json.
    destruct (append_to _ _ _) as [[d1 events]|]; [|done].
    simpl. by rewrite lookup_insert_ne.
Qed.

Lemma save_writes_one_file_witness :
  fs (snd (save_to_logging Fixtures.env0 Fixtures.w0 Fixtures.hello))
    !! "slack_events.json" = fs Fixtures.w0 !! "slack_events.json".
Proof.
  apply (save_writes_one_file Fixtures.cfg0 Fixtures.env0 Fixtures.w0
           Fixtures.hello "slack_events.json").
  discriminate.
Defined.

End MoreStores.

(** ** The Slack downloader, continued *)

Section MoreDownloads.
Import Slack Spec.

Lemma contains_underscore s1 s2 : Py.contains "_" (s1 +:+ "_" +:+ s2) = true.
Proof.
  induction s1 as [|c s1 IH]; simpl.
  - by destruct s2.
  - rewrite IH. apply orb_true_r.
Qed.

Lemma path_join_download_folder b :
  Py.path_join DOWNLOAD_FOLDER b =
    if String.prefix "/" b then b else "knowledge_base/slack/" +:+ b.
Proof. unfold Py.path_join. by destruct (String.prefix "/" b). Qed.

(** No download is ever saved under the path of the message log. *)
Lemma final_path_not_log stamp file_name :
  Py.path_join DOWNLOAD_FOLDER (stamp +:+ "_" +:+ file_name) <> LOGGING_FILE.
Proof.
  rewrite path_join_download_folder. intros H.
  destruct (String.prefix "/" _) eqn:E.
  - rewrite H in E. discriminate E.
  - simpl in H. injection H as H.
    change (stamp +:+ "_" +:+ file_name = "logging.json") in H.
    pose proof (contains_underscore stamp file_name) as Hc.
    rewrite H in Hc. discriminate Hc.
Qed.

(** X5. A download that passes the gate, gets a 200 response, can open
    its file and receives its whole body returns a result whose path is
    the final path, whose size is the number of bytes received, and the
    file at that path holds exactly those bytes. If the file cannot be
    opened the download returns [None] and the disk is as it was. *)
Theorem download_reports_what_it_saved (env : Env) (w : World)
  (file_info : FileInfo) (body : Stream) :
  gate file_info = proceed ->
  requests_get env (default "" (file_url_of file_info)) = Response 200 body ->
  (can_open env (slack_final_path env w file_info) = true ->
   complete body = true ->
   exists r,
     fst (download_file env w file_info) = Some r /\
     original_name r = file_name_of file_info /\
     result_file_id r = file_id file_info /\
     saved_path r = slack_final_path env w file_info /\
     fs (snd (download_file env w file_info)) !! saved_path r =
       Some (Raw (concat (chunks body))) /\
     result_size r = Z.of_nat (length (concat (chunks body)))) /\
  (can_open env (slack_final_path env w file_info) = false ->
   fst (download_file env w file_info) = None /\
   fs (snd (download_file env w file_info)) = fs w).
Proof.
  intros Hg Hr. unfold download_file, slack_final_path.
  rewrite Hg, Hr. simpl. split.
  - intros Ho Hc. rewrite Ho, Hc. simpl.
    eexists. split; [reflexivity|]. simpl. repeat split.
    apply written_at_final_path.
  - by intros ->.
Qed.

Lemma download_reports_what_it_saved_witness :
  (exists r,
     fst (download_file Fixtures.env0 Fixtures.w0 (Fixtures.notes_txt 500)) =
       Some r /\
     result_size r = 3) /\
  fst (download_file Fixtures.env0 Fixtures.w0 Fixtures.q1_notes) = None.
Proof.
  split.
  - destruct (download_reports_what_it_saved Fixtures.env0 Fixtures.w0
                (Fixtures.notes_txt 500)
                {| chunks := [[x41; x42]; [x43]]; complete := true |}
                eq_refl eq_refl) as [H _].
    destruct (H eq_refl eq_refl) as (r & H1 & _ & _ & _ & _ & H2).
    exists r. split; [exact H1 | exact H2].
  - apply (download_reports_what_it_saved Fixtures.env0 Fixtures.w0
             Fixtures.q1_notes
             {| chunks := [[x41; x42]; [x43]]; complete := true |}
             eq_refl eq_refl).
    reflexivity.
Defined.

(** X6. A download returns a result only after the gate has let the file
    through, the response had status 200 and the body arrived whole; and
    when the gate refuses, the request raises or the status is not 200,
    the world is left exactly as it was. *)
Theorem download_needs_200 (env : Env) (w : World) (file_info : FileInfo) :
  (forall r, fst (download_file env w file_info) = Some r ->
     gate file_info = proceed /\
     exists body,
       requests_get env (default "" (file_url_of file_info)) = Response 200 body /\
       complete body = true) /\
  (gate file_info <> proceed \/
   requests_get env (default "" (file_url_of file_info)) = ConnectionError \/
   (exists status_code body,
      requests_get env (default "" (file_url_of file_info)) =
        Response status_code body /\ status_code <> 200) ->
   download_file env w file_info = (None, w)).
Proof.
  unfold download_file. split.
  - intros r.
    destruct (gate file_info); [|discriminate].
    destruct (requests_get env _) as [|status_code body]; [discriminate|].
    destruct (Z.eqb_spec status_code 200) as [->|Hne]; [|discriminate].
    simpl. destruct (can_open env _); [|discriminate].
    destruct (complete body) eqn:Hc; [|discriminate].
    intros _. split; [done|]. by exists body.
  - intros [Hg | [Hr | (status_code & body & Hr & Hne)]].
    + by destruct (gate file_info).
    + rewrite Hr. by destruct (gate file_info).
    + rewrite Hr. destruct (gate file_info); [|done].
      by destruct (Z.eqb_spec status_code 200).
Qed.

Lemma download_needs_200_witness :
  download_file Fixtures.env_404 Fixtures.w0 (Fixtures.notes_txt 500) =
    (None, Fixtures.w0).
Proof.
  apply (download_needs_200 Fixtures.env_404 Fixtures.w0 (Fixtures.notes_txt 500)).
  right. right.
  exists 404, {| chunks := [[x4e; x6f]]; complete := true |}.
  split; [reflexivity | discriminate].
Defined.

Lemma download_file_keeps_log env w file_info :
  fs (snd (download_file env w file_info)) !! LOGGING_FILE =
    fs w !! LOGGING_FILE.
Proof.
  unfold download_file.
  destruct (gate file_info); [|done].
  destruct (requests_get env _) as [|status_code body]; [done|].
  destruct (status_code =? 200); [|done].
  assert (Hw : forall p cs (m : gmap string content),
             p <> LOGGING_FILE ->
             write_chunks p cs (open_wb p m) !! LOGGING_FILE = m !! LOGGING_FILE).
  { intros p cs m Hp. rewrite write_chunks_other by done.
    unfold open_wb. by rewrite lookup_insert_ne. }
  simpl. destruct (can_open env _); [|done].
  destruct (complete body); simpl; apply Hw, final_path_not_log.
Qed.

Lemma process_files_keeps_log env w fl :
  fs (snd (process_files env w fl)) !! LOGGING_FILE = fs w !! LOGGING_FILE.
Proof.
  revert w. induction fl as [|file_info rest IH]; intros w; simpl; [done|].
  pose proof (download_file_keeps_log env w file_info) as Hd.
  destruct (download_file env w file_info) as [download_result w1].
  specialize (IH w1).
  destruct (process_files env w1 rest) as [downloaded_files w2].
  simpl in *. destruct download_result; simpl; congruence.
Qed.

(** X7. No download, complete or broken, touches the message log: the
    name of a saved file carries an underscore after its time stamp,
    which the name of the log does not. So the files of a message never
    overwrite the log the message is about to be written to. *)
Theorem download_spares_log (env : Env) (w : World) (message : Message) :
  (forall file_info,
     fs (snd (download_file env w file_info)) !! LOGGING_FILE =
       fs w !! LOGGING_FILE) /\
  fs (snd (process_message_files env w message)) !! LOGGING_FILE =
    fs w !! LOGGING_FILE.
Proof.
  split; [apply download_file_keeps_log | apply process_files_keeps_log].
Qed.

(** *** Extensions *)

Lemma rfind_from_absent c s i acc :
  (forall d, In d (list_ascii_of_string s) -> Ascii.eqb d c = false) ->
  Py.rfind_from c s i acc = acc.
Proof.
  revert i acc. induction s as [|d s IH]; intros i acc H; simpl; [done|].
  rewrite (H d) by (simpl; auto). apply IH.
  intros d' Hd'. apply H. simpl. auto.
Qed.

Lemma rfind_from_lower_bound c s i acc :
  -1 <= acc -> 0 <= i -> -1 <= Py.rfind_from c s i acc.
Proof.
  revert i acc. induction s as [|d s IH]; intros i acc Hacc Hi; simpl; [done|].
  apply IH; [|lia]. destruct (Ascii.eqb d c); lia.
Qed.

Lemma no_dot_chars s :
  Py.contains "." s = false ->
  forall d, In d (list_ascii_of_string s) -> Ascii.eqb d "."%char = false.
Proof.
  induction s as [|c s IH]; simpl; [done|].
  intros H d [<- | Hd].
  - apply orb_false_elim in H as [H _].
    destruct (ascii_dec "." c) as [<-|Hne]; [by destruct s|].
    apply Ascii.eqb_neq. congruence.
  - apply IH; [|done]. by apply orb_false_elim in H as [_ H].
Qed.

(** X8. A file whose name has no dot has no extension, so it is never
    let through: it is refused as too large or, failing that, for its
    extension. *)
Theorem no_dot_no_download (file_info : FileInfo) :
  Py.contains "." (file_name_of file_info) = false ->
  gate file_info = reject too_large \/
  gate file_info = reject unsupported_extension.
Proof.
  intros H. unfold gate.
  destruct (file_size_of file_info >? MAX_FILE_SIZE); [by left|]. right.
  assert (Hext : resolved_extension file_info = "").
  { unfold resolved_extension, Py.splitext, Py.rfind.
    rewrite (rfind_from_absent "." _ 0 (-1)) by by apply no_dot_chars.
    pose proof (rfind_from_lower_bound "/" (file_name_of file_info) 0 (-1)
                  ltac:(lia) ltac:(lia)) as Hsep.
    destruct (Z.gtb_spec (-1) (Py.rfind_from "/" (file_name_of file_info) 0 (-1)));
      [lia | done]. }
  by rewrite Hext.
Qed.

Lemma no_dot_no_download_witness :
  gate Fixtures.readme = reject too_large \/
  gate Fixtures.readme = reject unsupported_extension.
Proof. apply no_dot_no_download. reflexivity. Defined.

Lemma lower_ascii_idem c : Py.lower_ascii (Py.lower_ascii c) = Py.lower_ascii c.
Proof. by destruct c as [[] [] [] [] [] [] [] []]. Qed.

Lemma lower_idem s : Py.lower (Py.lower s) = Py.lower s.
Proof.
  induction s as [|c s IH]; simpl; [done|]. by rewrite lower_ascii_idem, IH.
Qed.

Lemma lower_ascii_dot c :
  Ascii.eqb (Py.lower_ascii c) "." = Ascii.eqb c ".".
Proof. by destruct c as [[] [] [] [] [] [] [] []]. Qed.

Lemma lower_ascii_slash c :
  Ascii.eqb (Py.lower_ascii c) "/" = Ascii.eqb c "/".
Proof. by destruct c as [[] [] [] [] [] [] [] []]. Qed.

Lemma rfind_from_lower c s i acc :
  (forall d, Ascii.eqb (Py.lower_ascii d) c = Ascii.eqb d c) ->
  Py.rfind_from c (Py.lower s) i acc = Py.rfind_from c s i acc.
Proof.
  intros Hc. revert i acc.
  induction s as [|d s IH]; intros i acc; simpl; [done|]. by rewrite Hc, IH.
Qed.

Lemma length_lower s : String.length (Py.lower s) = String.length s.
Proof. induction s as [|c s IH]; simpl; [done | by rewrite IH]. Qed.

Lemma substring_lower n m s :
  String.substring n m (Py.lower s) = Py.lower (String.substring n m s).
Proof.
  revert n m. induction s as [|c s IH]; intros n m.
  - by destruct n, m.
  - destruct n as [|n]; simpl.
    + destruct m as [|m]; simpl; [done | by rewrite IH].
    + apply IH.
Qed.

Lemma all_dots_lower s : Py.all_dots (Py.lower s) = Py.all_dots s.
Proof.
  induction s as [|c s IH]; simpl; [done|]. by rewrite lower_ascii_dot, IH.
Qed.

(** Splitting off the extension and lowering the case can be done in
    either order. *)
Lemma splitext_lower p :
  Py.splitext (Py.lower p) =
    (Py.lower (fst (Py.splitext p)), Py.lower (snd (Py.splitext p))).
Proof.
  unfold Py.splitext, Py.rfind, Py.slice, Py.len.
  rewrite !rfind_from_lower by (apply lower_ascii_dot || apply lower_ascii_slash).
  rewrite length_lower, !substring_lower, all_dots_lower.
  destruct (_ >? _); [|done]. by destruct (Py.all_dots _).
Qed.

(** X9. The gate does not see the letter case of a name: two files whose
    names are equal up to case, and which agree on size and on the
    presence of a link, get the same decision. *)
Theorem gate_ignores_case (f g : FileInfo) :
  Py.lower (file_name_of f) = Py.lower (file_name_of g) ->
  file_size_of f = file_size_of g ->
  truthy (file_url_of f) = truthy (file_url_of g) ->
  gate f = gate g.
Proof.
  intros Hn Hs Hu.
  assert (He : resolved_extension f = resolved_extension g).
  { unfold resolved_extension.
    change (Py.lower (snd (Py.splitext (file_name_of f))))
      with (snd (Py.lower (fst (Py.splitext (file_name_of f))),
                 Py.lower (snd (Py.splitext (file_name_of f))))).
    change (Py.lower (snd (Py.splitext (file_name_of g))))
      with (snd (Py.lower (fst (Py.splitext (file_name_of g))),
                 Py.lower (snd (Py.splitext (file_name_of g))))).
    by rewrite <- !splitext_lower, Hn. }
  unfold gate. by rewrite Hs, He, Hu.
Qed.

Lemma gate_ignores_case_witness :
  gate Fixtures.notes_upper = gate (Fixtures.notes_txt 500).
Proof. apply gate_ignores_case; reflexivity. Defined.

(** X10. The files [process_message_files] reports as downloaded are
    files of the message, each at most once per entry and in the order of
    the message. *)
Theorem downloaded_is_sublist (env : Env) (w : World) (message : Message) :
  (fst <$> fst (process_message_files env w message)) `sublist_of` files message.
Proof.
  unfold process_message_files. generalize (files message) as fl.
  intros fl. revert w. induction fl as [|file_info rest IH]; intros w; simpl.
  - constructor.
  - destruct (download_file env w file_info) as [download_result w1].
    specialize (IH w1).
    destruct (process_files env w1 rest) as [downloaded_files w2].
    destruct download_result as [r|]; simpl in *.
    + by constructor.
    + by constructor.
Qed.

End MoreDownloads.

(** ** The passes of the Slack monitor *)

Section Passes.
Import Slack Spec.

(** *** What the passes leave alone: the cursor and the sleep record *)

Lemma download_file_meta env w file_info :
  last_check_time (snd (download_file env w file_info)) = last_check_time w /\
  sleeps (snd (download_file env w file_info)) = sleeps w.
Proof.
  unfold download_file.
  destruct (gate file_info); [|done].
  destruct (requests_get env _) as [|status_code body]; [done|].
  destruct (status_code =? 200); [|done].
  simpl. destruct (can_open env _); [|done]. by destruct (complete body).
Qed.

Lemma process_files_meta env w fl :
  last_check_time (snd (process_files env w fl)) = last_check_time w /\
  sleeps (snd (process_files env w fl)) = sleeps w.
Proof.
  revert w. induction fl as [|file_info rest IH]; intros w; simpl; [done|].
  pose proof (download_file_meta env w file_info) as [H1 H2].
  destruct (download_file env w file_info) as [download_result w1].
  specialize (IH w1).
  destruct (process_files env w1 rest) as [downloaded_files w2].
  simpl in *. destruct IH. destruct download_result; simpl; split; congruence.
Qed.

Lemma save_to_logging_meta env w data :
  last_check_time (snd (save_to_logging env w data)) = last_check_time w /\
  sleeps (snd (save_to_logging env w data)) = sleeps w.
Proof.
  unfold save_to_logging. by destruct (append_to _ _ _) as [[d1 messages]|].
Qed.

Lemma save_to_json_meta cfg env w data :
  last_check_time (snd (save_to_json cfg env w data)) = last_check_time w /\
  sleeps (snd (save_to_json cfg env w data)) = sleeps w.
Proof.
  unfold save_to_json. by destruct (append_to _ _ _) as [[d1 events]|].
Qed.

Lemma log_message_meta env bot_user_id w message :
  last_check_time (log_message env bot_user_id w message) = last_check_time w /\
  sleeps (log_message env bot_user_id w message) = sleeps w.
Proof.
  unfold log_message, process_message_files.
  destruct (from_bot bot_user_id message); [done|].
  pose proof (process_files_meta env w (files message)) as [H1 H2].
  destruct (process_files env w (files message)) as [downloaded_files w1].
  simpl in *.
  match goal with |- context [save_to_logging env ?w2 ?d] =>
    pose proof (save_to_logging_meta env w2 d) as [H3 H4] end.
  simpl in *. split; congruence.
Qed.

Lemma log_messages_meta env bot_user_id w messages :
  last_check_time (log_messages env bot_user_id w messages) = last_check_time w /\
  sleeps (log_messages env bot_user_id w messages) = sleeps w.
Proof.
  revert w. induction messages as [|m rest IH]; intros w; simpl; [done|].
  destruct (IH (log_message env bot_user_id w m)) as [H1 H2].
  destruct (log_message_meta env bot_user_id w m) as [H3 H4].
  split; congruence.
Qed.

Lemma check_message_meta cfg env bot_user_id channel w message :
  last_check_time (check_message cfg env bot_user_id channel w message) =
    last_check_time w /\
  sleeps (check_message cfg env bot_user_id channel w message) = sleeps w.
Proof.
  unfold check_message.
  destruct (bool_decide _); [done|].
  destruct (classify _ _ _) as [[trigger_type trigger_details]|]; [|done].
  lazy beta iota zeta delta [now].
  match goal with |- context [save_to_json cfg env ?w1 ?d] =>
    pose proof (save_to_json_meta cfg env w1 d) as [H1 H2] end.
  simpl in *. split; congruence.
Qed.

Lemma check_messages_meta cfg env bot_user_id channel w messages :
  last_check_time (check_messages cfg env bot_user_id channel w messages) =
    last_check_time w /\
  sleeps (check_messages cfg env bot_user_id channel w messages) = sleeps w.
Proof.
  revert w. induction messages as [|m rest IH]; intros w; simpl; [done|].
  destruct (IH (check_message cfg env bot_user_id channel w m)) as [H1 H2].
  destruct (check_message_meta cfg env bot_user_id channel w m) as [H3 H4].
  split; congruence.
Qed.



(** *** The logging pass *)








(** *** Errors of the history endpoint *)

(** X12. In both passes of a cycle a Slack API error on a channel skips
    that channel and the pass goes on with the next one, while any other
    exception ends the pass there: the channels after it are not read in
    this pass. *)
Theorem history_error_propagation (cfg : Config) (env : Env)
  (history : string -> nat -> HistoryReply) (bot_user_id : option string)
  (w : World) (channel : string) (before after : list string) :
  (history channel (last_check_time w) = HistoryApiError ->
   log_channels env history bot_user_id w (before ++ channel :: after) =
     log_channels env history bot_user_id w (before ++ after) /\
   check_channels cfg env history bot_user_id w (before ++ channel :: after) =
     check_channels cfg env history bot_user_id w (before ++ after)) /\
  (history channel (last_check_time w) = HistoryOtherError ->
   log_channels env history bot_user_id w (before ++ channel :: after) =
     log_channels env history bot_user_id w before /\
   check_channels cfg env history bot_user_id w (before ++ channel :: after) =
     check_channels cfg env history bot_user_id w before).
Proof.
  split; intros H; split; revert w H;
    induction before as [|c before IH]; intros w H; simpl;
    try (unfold get_recent_messages at 1; rewrite H; reflexivity);
    destruct (get_recent_messages history c (last_check_time w))
      as [messages|]; try reflexivity; apply IH.
  - by rewrite (proj1 (log_messages_meta env bot_user_id w messages)).
  - by rewrite (proj1 (check_messages_meta cfg env bot_user_id c w messages)).
  - by rewrite (proj1 (log_messages_meta env bot_user_id w messages)).
  - by rewrite (proj1 (check_messages_meta cfg env bot_user_id c w messages)).
Qed.

Lemma history_error_propagation_witness :
  log_channels Fixtures.env0 (Fixtures.history_c2 HistoryOtherError)
    (Some "U0BOT") Fixtures.w0 (["C1"] ++ "C2" :: ["C3"]) =
  log_channels Fixtures.env0 (Fixtures.history_c2 HistoryOtherError)
    (Some "U0BOT") Fixtures.w0 ["C1"].
Proof.
  apply (history_error_propagation Fixtures.cfg0 Fixtures.env0
           (Fixtures.history_c2 HistoryOtherError) (Some "U0BOT") Fixtures.w0
           "C2" ["C1"] ["C3"]).
  reflexivity.
Defined.

(** X13. The history scan at start-up does not wrap its history call: a
    failure of either kind on one of the channels makes the scan return
    [False], whatever was downloaded for the channels before it. *)
Theorem scan_fails_on_any_error (cfg : Config) (env : Env)
  (history : string -> HistoryReply) (bot_user_id : option string)
  (w : World) (channel : string) :
  channel ∈ TARGET_CHANNELS cfg ->
  history_failed (history channel) ->
  fst (check_for_files_in_history cfg env history bot_user_id w) = false.
Proof.
  unfold check_for_files_in_history. generalize 0 as total.
  generalize (TARGET_CHANNELS cfg) as channels.
  intros channels. revert w.
  induction channels as [|c rest IH]; intros w total Hin Hfail.
  - by apply elem_of_nil in Hin.
  - simpl. destruct (history c) as [messages| |] eqn:Hc; try reflexivity.
    apply elem_of_cons in Hin as [-> | Hin].
    + rewrite Hc in Hfail. destruct Hfail.
    + destruct (scan_messages env bot_user_id (w, (0, 0)) messages)
        as [w1 [found downloaded]].
      by apply IH.
Qed.

Lemma scan_fails_on_any_error_witness :
  fst (check_for_files_in_history
         {| SLACK_BOT_TOKEN := "xoxb-0"; TARGET_CHANNELS := ["C1"; "C2"];
            JSON_FILE := "slack_events.json"; POLL_INTERVAL := 10 |}
         Fixtures.env0
         (fun channel => Fixtures.history_c2 HistoryApiError channel 0%nat)
         (Some "U0BOT") Fixtures.w0) = false.
Proof.
  apply (scan_fails_on_any_error _ _ _ _ _ "C2").
  - apply elem_of_cons. right. apply elem_of_cons. by left.
  - exact I.
Defined.

(** *** What the trigger pass writes *)

(** X14. The trigger pass writes the events store and nothing else:
    every other path holds after the pass what it held before, so the
    pass downloads nothing and does not touch the message log unless the
    two stores are configured to share a file. *)
Theorem trigger_pass_writes_events_only (cfg : Config) (env : Env)
  (history : string -> nat -> HistoryReply) (bot_user_id : option string)
  (w : World) (p : string) :
  p <> JSON_FILE cfg ->
  fs (check_bot_mentions_and_keywords cfg env history bot_user_id w) !! p =
    fs w !! p.
Proof.
  intros Hp.
  assert (Hmsg : forall channel w message,
            fs (check_message cfg env bot_user_id channel w message) !! p =
              fs w !! p).
  { intros channel w0 message. unfold check_message.
    destruct (bool_decide _); [done|].
    destruct (classify _ _ _) as [[trigger_type trigger_details]|]; [|done].
    lazy beta iota zeta delta [now].
    unfold save_to_json.
    destruct (append_to _ _ _) as [[d1 events]|]; [|done].
    simpl. by rewrite lookup_insert_ne. }
  assert (Hmsgs : forall channel messages w,
            fs (check_messages cfg env bot_user_id channel w messages) !! p =
              fs w !! p).
  { intros channel messages.
    induction messages as [|m rest IH]; intros w0; simpl; [done|].
    by rewrite IH, Hmsg. }
  unfold check_bot_mentions_and_keywords.
  generalize (TARGET_CHANNELS cfg) as channels. intros channels. revert w.
  induction channels as [|channel rest IH]; intros w; simpl; [done|].
  destruct (get_recent_messages _ _ _) as [messages|]; [|done].
  by rewrite IH, Hmsgs.
Qed.

Lemma trigger_pass_writes_events_only_witness :
  fs (check_bot_mentions_and_keywords Fixtures.cfg0 Fixtures.env0
        (fun _ _ => HistoryOk [Fixtures.ann_says]) (Some "U0BOT") Fixtures.w0)
    !! LOGGING_FILE = fs Fixtures.w0 !! LOGGING_FILE.
Proof. apply trigger_pass_writes_events_only. discriminate. Defined.

(** *** The loop *)



(** *** The first keyword *)

(** X16. The first entry of the keyword list, [/aisave], is never
    reported as a keyword. A text whose lowered form contains it is
    labelled by one of the two branches above the keyword branch: it is a
    bot mention if it carries the mention, and a command otherwise. So
    the details of a keyword trigger list matches among the other five
    keywords only. This holds whatever [str.lower] makes of the text. *)
Theorem aisave_never_a_keyword (lower : string -> string)
  (bot_user_id : option string) (message_text : string) :
  (Py.contains "/aisave" (lower message_text) = true ->
   classify lower bot_user_id message_text =
     if Py.contains ("<@" +:+ Py.str_of_option bot_user_id +:+ ">") message_text
     then Some (bot_mention, "Direct bot mention")
     else Some (aisave_command, "Manual /aisave command")) /\
  (forall details,
     classify lower bot_user_id message_text = Some (keyword_trigger, details) ->
     Py.contains "/aisave" (lower message_text) = false /\
     details =
       "Keywords: " +:+
       Py.join ", "
         (List.filter
            (fun kw => Py.contains (Py.lower kw) (lower message_text))
            ["save this"; "important"; "remember this"; "@ai"; "@bot"])).
Proof.
  unfold classify. split.
  - intros ->. reflexivity.
  - intros details.
    destruct (Py.contains ("<@" +:+ _) message_text); [discriminate|].
    destruct (Py.contains "/aisave" (lower message_text)) eqn:Hc;
      [discriminate|].
    destruct (existsb _ keywords); [|by destruct (existsb _ patterns)].
    assert (Hf :
      List.filter (fun kw => Py.contains (Py.lower kw) (lower message_text))
        keywords =
      List.filter (fun kw => Py.contains (Py.lower kw) (lower message_text))
        ["save this"; "important"; "remember this"; "@ai"; "@bot"]).
    { unfold keywords. cbn [List.filter].
      change (Py.lower "/aisave") with "/aisave". by rewrite Hc. }
    intros [= <-]. split; [done|].
    exact (f_equal (fun l => "Keywords: " +:+ Py.join ", " l) Hf).
Qed.

Lemma aisave_never_a_keyword_witness :
  classify Py.lower (Some "U0BOT") "Please /AISave this, it is important" =
    Some (aisave_command, "Manual /aisave command") /\
  Py.contains "/aisave" (Py.lower "this is Important, remember this") = false.
Proof.
  split.
  - apply (aisave_never_a_keyword Py.lower (Some "U0BOT")
             "Please /AISave this, it is important").
    reflexivity.
  - apply (proj2 (aisave_never_a_keyword Py.lower (Some "U0BOT")
                    "this is Important, remember this")
             "Keywords: important, remember this").
    reflexivity.
Defined.

End Passes.

(** ** The Drive monitor, continued *)

Section MoreDrive.
Import Spec.

(** X17. The listing is the concatenation of the pages in the order they
    were read, up to and including the first page without a token; pages
    after that one are not asked for, and an error on any page before it
    discards what was read and fails the whole listing. *)
Theorem get_all_files_pages
  (pre : list (list Drive.DriveFile * (ascii * string)))
  (last : list Drive.DriveFile) (token : option string)
  (rest : list Drive.PageReply) (acc : list Drive.DriveFile) :
  token = None \/ token = Some "" ->
  Drive.get_all_files
    ((page_with_token <$> pre) ++ Drive.Page last token :: rest) acc =
    Some (acc ++ concat (fst <$> pre) ++ last) /\
  Drive.get_all_files ((page_with_token <$> pre) ++ Drive.PageError :: rest) acc =
    None.
Proof.
  intros Ht. revert acc.
  induction pre as [|[files [c tok]] pre IH]; intros acc; simpl.
  - split; [|done]. by destruct Ht as [-> | ->].
  - destruct (IH (acc ++ files)) as [H1 H2].
    split; [|exact H2].
    etrans; [exact H1|]. f_equal. by rewrite <- !app_assoc.
Qed.

Lemma get_all_files_pages_witness :
  Drive.get_all_files (Drive.listing Fixtures.poll_both) [] =
    Some ([] ++ concat [[Fixtures.old_txt]] ++ [Fixtures.big_bin]).
Proof.
  apply (get_all_files_pages [([Fixtures.old_txt], ("t"%char, "1"))]
           [Fixtures.big_bin] None [] []).
  by left.
Defined.

(** X18. A Drive download that gets past the gate and can open its file
    runs its one request, reports success exactly when the body arrived
    whole, and leaves at the final path the bytes received and nothing of
    what was there before; no other path changes. Two files of the same
    name therefore overwrite each other. If the file cannot be opened,
    as when the name of the file names a folder that is not there, the
    download reports failure and nothing is requested or written. *)
Theorem drive_download_content (media : Drive.Request -> Stream)
  (w : Drive.World) (file_id file_name mime_type : string)
  (request : Drive.Request) (save_name : string) :
  Drive.gate file_id file_name mime_type = Some (request, save_name) ->
  (Drive.can_open w (drive_final_path save_name) = true ->
   fst (Drive.download_file media w file_id file_name mime_type) =
     complete (media request) /\
   Drive.fs (snd (Drive.download_file media w file_id file_name mime_type))
     !! drive_final_path save_name =
     Some (Raw (concat (chunks (media request)))) /\
   (forall p, p <> drive_final_path save_name ->
      Drive.fs (snd (Drive.download_file media w file_id file_name mime_type)) !! p =
        Drive.fs w !! p) /\
   Drive.fetched (snd (Drive.download_file media w file_id file_name mime_type)) =
     Drive.fetched w ++ [request]) /\
  (Drive.can_open w (drive_final_path save_name) = false ->
   Drive.download_file media w file_id file_name mime_type = (false, w)).
Proof.
  intros Hg. unfold Drive.download_file, drive_final_path. rewrite Hg.
  split; intros ->; [|reflexivity]. simpl.
  repeat split.
  - apply written_at_final_path.
  - intros p Hp. rewrite write_chunks_other by done.
    unfold open_wb. by rewrite lookup_insert_ne.
Qed.

Lemma drive_download_content_witness :
  Drive.fs (snd (Drive.download_file Fixtures.media_ok Fixtures.d0 "f1" "big.bin"
                   "application/octet-stream"))
    !! drive_final_path "big.bin" = Some (Raw [x41; x42; x43]) /\
  Drive.download_file Fixtures.media_ok Fixtures.d0 "f4" "reports/q1.txt"
    "text/plain" = (false, Fixtures.d0).
Proof.
  split.
  - apply (drive_download_content Fixtures.media_ok Fixtures.d0 "f1" "big.bin"
             "application/octet-stream" (Drive.get_media "f1") "big.bin");
      reflexivity.
  - apply (drive_download_content Fixtures.media_ok Fixtures.d0 "f4"
             "reports/q1.txt" "text/plain" (Drive.get_media "f4")
             "reports/q1.txt");
      reflexivity.
Defined.

(** *** What a poll fetches *)

Lemma gate_request_id file_id file_name mime_type request save_name :
  Drive.gate file_id file_name mime_type = Some (request, save_name) ->
  request_id request = file_id.
Proof.
  unfold Drive.gate. destruct (Py.startswith _ _).
  - destruct (Drive.export_formats !! mime_type); [|done]. by intros [= <- _].
  - by intros [= <- _].
Qed.

Lemma download_file_fetched media w file_id file_name mime_type r :
  r ∈ Drive.fetched (snd (Drive.download_file media w file_id file_name mime_type)) ->
  r ∈ Drive.fetched w \/ request_id r = file_id.
Proof.
  unfold Drive.download_file.
  destruct (Drive.gate _ _ _) as [[request save_name]|] eqn:Hg; simpl; [|by left].
  destruct (Drive.can_open w _); simpl; [|by left].
  intros [H | H]%elem_of_app; [by left|]. right.
  apply list_elem_of_singleton in H as ->. by eapply gate_request_id.
Qed.

Lemma process_new_fetched media (new_file_ids known_files : gset string) w
  current_files r :
  r ∈ Drive.fetched
        (snd (Drive.process_new media new_file_ids known_files w current_files)) ->
  r ∈ Drive.fetched w \/ request_id r ∈ new_file_ids.
Proof.
  revert known_files w.
  induction current_files as [|file rest IH]; intros known_files w; simpl;
    [by left|].
  destruct (decide (Drive.id file ∈ new_file_ids)) as [Hin|Hout]; [|apply IH].
  pose proof (download_file_fetched media w (Drive.id file) (Drive.name file)
                (default "" (Drive.mimeType file)) r) as Hd.
  destruct (Drive.download_file media w _ _ _) as [success w1]. simpl in Hd.
  intros [H | H]%IH; [|by right].
  destruct (Hd H) as [? | ->]; [by left | by right].
Qed.

Lemma poll_fetched (st : gset string * Drive.World) p r :
  r ∈ Drive.fetched (snd (Drive.poll st p)) ->
  r ∈ Drive.fetched (snd st) \/ request_id r ∈ Drive.new_file_ids (fst st) p.
Proof.
  destruct st as [known_files w]. unfold Drive.poll, Drive.new_file_ids. simpl.
  destruct (Drive.get_all_files _ _) as [current_files|]; [|by left].
  destruct (decide _) as [Hempty|Hnew]; [by left|].
  pose proof (process_new_fetched (Drive.media p)
                (list_to_set (Drive.id <$> current_files) ∖ known_files)
                known_files w current_files r) as Hp.
  by destruct (Drive.process_new _ _ _ _ _).
Qed.

Lemma process_new_can_open media (new_file_ids known_files : gset string) w
  current_files :
  Drive.can_open
    (snd (Drive.process_new media new_file_ids known_files w current_files)) =
    Drive.can_open w.
Proof.
  revert known_files w.
  induction current_files as [|file rest IH]; intros known_files w; simpl;
    [done|].
  destruct (decide _); [|apply IH].
  pose proof (download_file_can_open media w (Drive.id file) (Drive.name file)
                (default "" (Drive.mimeType file))) as Ho.
  destruct (Drive.download_file media w _ _ _) as [success w1].
  simpl in Ho. by rewrite IH.
Qed.

Lemma poll_can_open (st : gset string * Drive.World) p :
  Drive.can_open (snd (Drive.poll st p)) = Drive.can_open (snd st).
Proof.
  destruct st as [known_files w]. unfold Drive.poll. simpl.
  destruct (Drive.get_all_files _ _) as [current_files|]; [|done].
  destruct (decide _) as [Hempty|Hnew]; [done|].
  pose proof (process_new_can_open (Drive.media p)
                (list_to_set (Drive.id <$> current_files) ∖ known_files)
                known_files w current_files) as Ho.
  by destruct (Drive.process_new _ _ _ _ _).
Qed.

(** The requests of the listed entries that are in the given set, get
    past the gate and can open their file, in listing order. *)
Lemma process_new_trace media (new_file_ids known_files : gset string) w
  current_files :
  Drive.fetched
    (snd (Drive.process_new media new_file_ids known_files w current_files)) =
  Drive.fetched w ++
  omap (fun file =>
          if decide (Drive.id file ∈ new_file_ids)
          then request_of (Drive.can_open w) file
          else None) current_files.
Proof.
  revert known_files w.
  induction current_files as [|file rest IH]; intros known_files w; simpl.
  - by rewrite app_nil_r.
  - destruct (decide (Drive.id file ∈ new_file_ids)); [|apply IH].
    unfold Drive.download_file, request_of, drive_final_path.
    destruct (Drive.gate _ _ _) as [[request save_name]|]; simpl;
      [|by rewrite IH].
    destruct (Drive.can_open w _); simpl; rewrite IH; simpl;
      [by rewrite <- app_assoc | done].
Qed.

(** X27. Within one poll the requests are made in listing order, one for
    each listed entry that is in the new partition, gets past the gate
    and can open its file. The partition is fixed before the loop and the
    known set is not looked at again, so an id that the listing carries
    twice is fetched twice in that poll. *)
Theorem poll_fetch_trace (known_files : gset string) (w : Drive.World)
  (p : Drive.Poll) (current_files : list Drive.DriveFile) :
  Drive.get_all_files (Drive.listing p) [] = Some current_files ->
  Drive.fetched (snd (Drive.poll (known_files, w) p)) =
  Drive.fetched w ++
  omap (fun file =>
          if decide (Drive.id file ∈ Drive.new_file_ids known_files p)
          then request_of (Drive.can_open w) file
          else None) current_files.
Proof.
  intros Hl. unfold Drive.poll, Drive.new_file_ids. rewrite Hl.
  destruct (decide _) as [Hempty|Hnew]; simpl.
  - rewrite Hempty. clear.
    induction current_files as [|file rest IH]; simpl; [by rewrite app_nil_r|].
    destruct (decide (Drive.id file ∈ (∅ : gset string))) as [Hin|_];
      [by apply elem_of_empty in Hin | exact IH].
  - rewrite <- (process_new_trace (Drive.media p) _ known_files w).
    by destruct (Drive.process_new _ _ _ _ _).
Qed.

Lemma poll_fetch_trace_witness :
  Drive.fetched (snd (Drive.poll (∅, Fixtures.d0) Fixtures.poll_twice)) =
    [Drive.get_media "f1"; Drive.get_media "f1"] /\
  Drive.fetched (snd (Drive.poll (∅, Fixtures.d0) Fixtures.poll_report)) = [].
Proof.
  split.
  - rewrite (poll_fetch_trace ∅ Fixtures.d0 Fixtures.poll_twice
               [Fixtures.big_bin; Fixtures.big_bin] eq_refl).
    by vm_compute.
  - rewrite (poll_fetch_trace ∅ Fixtures.d0 Fixtures.poll_report
               [Fixtures.report_q1] eq_refl).
    by vm_compute.
Defined.

(** X19. A poll runs media requests only for files of its new partition:
    every request it adds is for an id that the poll lists and that was
    not known when the poll began. *)
Theorem poll_fetches_only_new (known_files : gset string) (w : Drive.World)
  (p : Drive.Poll) (r : Drive.Request) :
  r ∈ Drive.fetched (snd (Drive.poll (known_files, w) p)) ->
  r ∈ Drive.fetched w \/ (request_id r ∈ listed p /\ request_id r ∉ known_files).
Proof.
  intros [H | H]%poll_fetched; [by left | right].
  simpl in H. rewrite new_file_ids_listed in H. set_solver.
Qed.

Lemma poll_fetches_only_new_witness :
  Drive.get_media "f1" ∈ Drive.fetched Fixtures.d0 \/
  (request_id (Drive.get_media "f1") ∈ listed Fixtures.poll_ok /\
   request_id (Drive.get_media "f1") ∉ (∅ : gset string)).
Proof.
  apply (poll_fetches_only_new ∅ Fixtures.d0 Fixtures.poll_ok).
  vm_compute. constructor.
Defined.

Lemma poll_loop_fetched (known0 : gset string)
  (st : gset string * Drive.World) polls r :
  known0 ⊆ fst st ->
  r ∈ Drive.fetched (snd (Drive.poll_loop st polls)) ->
  r ∈ Drive.fetched (snd st) \/ request_id r ∉ known0.
Proof.
  revert st. induction polls as [|p rest IH]; intros st Hsub; simpl; [by left|].
  intros [H | H]%IH; [|by right|].
  - apply poll_fetched in H as [H | H]; [by left | right].
    rewrite new_file_ids_listed in H. set_solver.
  - rewrite poll_known. set_solver.
Qed.

(** X20. The files the first listing reports are the baseline: in the
    whole run no media request is made for any of them, whatever the
    later polls list and however their transfers go. *)
Theorem startup_files_never_fetched (w : Drive.World)
  (initial : list Drive.PageReply) (initial_files : list Drive.DriveFile)
  (polls : list Drive.Poll) (file : Drive.DriveFile) (r : Drive.Request) :
  Drive.get_all_files initial [] = Some initial_files ->
  file ∈ initial_files ->
  r ∈ Drive.fetched (snd (Drive.monitor_drive w initial polls)) ->
  request_id r = Drive.id file ->
  r ∈ Drive.fetched w.
Proof.
  intros Hinit Hfile Hr Hid. unfold Drive.monitor_drive in Hr.
  rewrite Hinit in Hr.
  apply (poll_loop_fetched (list_to_set (Drive.id <$> initial_files))) in Hr
    as [Hr | Hr]; [done | | done].
  exfalso. apply Hr. rewrite Hid.
  apply elem_of_list_to_set, list_elem_of_fmap. by exists file.
Qed.

Lemma startup_files_never_fetched_witness :
  Drive.get_media "f0" ∉
    Drive.fetched
      (snd (Drive.monitor_drive Fixtures.d0 [Drive.Page [Fixtures.old_txt] None]
              [Fixtures.poll_both; Fixtures.poll_both])).
Proof.
  intros H.
  pose proof (startup_files_never_fetched Fixtures.d0
                [Drive.Page [Fixtures.old_txt] None] [Fixtures.old_txt]
                [Fixtures.poll_both; Fixtures.poll_both] Fixtures.old_txt
                (Drive.get_media "f0") eq_refl
                ltac:(constructor) H eq_refl) as Hin.
  by apply elem_of_nil in Hin.
Defined.

(** X21. A poll in which every new file was downloaded, each one let
    through by the gate, opened and transferred whole, makes the next
    poll idle as long as nothing new is listed: that poll has an empty
    new partition, runs no request, writes nothing, and only sleeps. *)
Theorem poll_idempotent (st : gset string * Drive.World) (p q : Drive.Poll) :
  succeeded st p = Drive.new_file_ids (fst st) p ->
  listed q ⊆ listed p ->
  Drive.new_file_ids (fst (Drive.poll st p)) q = ∅ /\
  Drive.poll (Drive.poll st p) q =
    (fst (Drive.poll st p), Drive.sleep Drive.POLL_INTERVAL (snd (Drive.poll st p))).
Proof.
  intros Hall Hsub.
  assert (Hnew : Drive.new_file_ids (fst (Drive.poll st p)) q = ∅).
  { rewrite new_file_ids_listed, poll_known, Hall, new_file_ids_listed.
    apply set_eq. intros x. split; [|set_solver]. intros Hx.
    apply elem_of_difference in Hx as [Hq Hn].
    destruct (decide (x ∈ fst st)); set_solver. }
  split; [done|].
  destruct (Drive.poll st p) as [known_files w] eqn:E. simpl in *.
  unfold Drive.poll. unfold Drive.new_file_ids in Hnew.
  destruct (Drive.get_all_files (Drive.listing q) []) as [current_files|];
    [|done].
  by rewrite decide_True.
Qed.

Lemma poll_idempotent_witness :
  Drive.new_file_ids (fst (Drive.poll (∅, Fixtures.d0) Fixtures.poll_ok))
    Fixtures.poll_ok = ∅.
Proof.
  apply (poll_idempotent (∅, Fixtures.d0) Fixtures.poll_ok Fixtures.poll_ok).
  - apply set_eq. intros x. by vm_compute.
  - done.
Defined.

Lemma succeeded_in_inv can_open media (new_file_ids : gset string)
  current_files x :
  x ∈ succeeded_in can_open media new_file_ids current_files ->
  exists file, file ∈ current_files /\ Drive.id file = x /\
               download_ok can_open media file = true.
Proof.
  unfold succeeded_in. intros H.
  apply elem_of_list_to_set, list_elem_of_fmap in H as (file & -> & H).
  apply list_elem_of_In, filter_In in H as [Hin Hb].
  apply andb_true_iff in Hb as [_ Hok].
  exists file. by rewrite list_elem_of_In.
Qed.

(** X22. An id enters the known set in one way only: it was known at the
    start, or one of the polls listed a file with that id whose download
    succeeded: the gate let it through, its file could be opened and the
    transfer completed. A file whose every download fails, such as a
    Google form or a folder, which the gate refuses each time, never
    becomes known. *)
Theorem known_only_by_success (st : gset string * Drive.World)
  (polls : list Drive.Poll) (x : string) :
  x ∈ fst (Drive.poll_loop st polls) ->
  x ∈ fst st \/
  exists p file, p ∈ polls /\ file ∈ files_of p /\ Drive.id file = x /\
                 download_ok (Drive.can_open (snd st)) (Drive.media p) file = true.
Proof.
  revert st. induction polls as [|p rest IH]; intros st; simpl; [by left|].
  intros [H | (p' & file & Hp & Hf)]%IH; rewrite ?poll_can_open in *.
  - rewrite poll_known in H. apply elem_of_union in H as [H | H]; [by left|].
    right. unfold succeeded in H. exists p. unfold files_of.
    destruct (Drive.get_all_files _ _) as [current_files|];
      [|by apply elem_of_empty in H].
    apply succeeded_in_inv in H as (file & Hfile & Hid & Hok).
    exists file. repeat split; [constructor | done..].
  - right. exists p', file. split; [by constructor | done].
Qed.

Lemma known_only_by_success_witness :
  "f1" ∈ (∅ : gset string) \/
  exists p file, p ∈ [Fixtures.poll_ok] /\ file ∈ files_of p /\
                 Drive.id file = "f1" /\
                 download_ok (Drive.can_open Fixtures.d0) (Drive.media p) file =
                   true.
Proof.
  apply (known_only_by_success (∅, Fixtures.d0) [Fixtures.poll_ok] "f1").
  by vm_compute.
Defined.

Lemma process_new_sleeps media (new_file_ids known_files : gset string) w
  current_files :
  Drive.sleeps
    (snd (Drive.process_new media new_file_ids known_files w current_files)) =
    Drive.sleeps w.
Proof.
  revert known_files w.
  induction current_files as [|file rest IH]; intros known_files w; simpl;
    [done|].
  destruct (decide _); [|apply IH].
  unfold Drive.download_file.
  destruct (Drive.gate _ _ _) as [[request save_name]|]; [|by rewrite IH].
  destruct (Drive.can_open w _); by rewrite IH.
Qed.

(** X23. Every turn of the Drive loop ends with one sleep of thirty
    seconds, whether its listing failed, nothing was new, or downloads
    were made: after [n] turns the record of sleeps has grown by [n]
    entries of 30. *)
Theorem poll_loop_sleeps (st : gset string * Drive.World)
  (polls : list Drive.Poll) :
  Drive.sleeps (snd (Drive.poll_loop st polls)) =
    Drive.sleeps (snd st) ++ replicate (length polls) 30.
Proof.
  revert st. induction polls as [|p rest IH]; intros st; simpl.
  - by rewrite app_nil_r.
  - rewrite IH. destruct st as [known_files w]. unfold Drive.poll. simpl.
    destruct (Drive.get_all_files _ _) as [current_files|];
      [|simpl; by rewrite <- app_assoc].
    destruct (decide _); [simpl; by rewrite <- app_assoc|].
    pose proof (process_new_sleeps (Drive.media p)
                  (list_to_set (Drive.id <$> current_files) ∖ known_files)
                  known_files w current_files) as Hs.
    destruct (Drive.process_new _ _ _ _ _) as [known' w1]. simpl in *.
    by rewrite Hs, <- app_assoc.
Qed.

End MoreDrive.

(** ** Start-up of the Slack monitor *)

Section StartUp.
Import Slack Spec.

Example startup_one_channel :
  startup {[ "config.json" := Json Fixtures.config_one_channel ]} =
    ready (JStr "xoxb-0") [JStr "C1"] (JStr "slack_events.json") (JNum 10).
Proof. by vm_compute. Qed.

Example startup_empty_object :
  startup {[ "config.json" := Json (JObj []) ]} = exit_1.
Proof. by vm_compute. Qed.



(** *** The whole run and the messages of the bot *)

Lemma own_filter_log env bot w messages :
  log_messages env (Some bot) w
    (List.filter (fun m => negb (bool_decide (user m = Some bot))) messages) =
  log_messages env (Some bot) w messages.
Proof.
  revert w. induction messages as [|m rest IH]; intros w; simpl; [done|].
  destruct (bool_decide (user m = Some bot)) eqn:E; simpl.
  - rewrite IH. f_equal. unfold log_message, from_bot. by rewrite E.
  - apply IH.
Qed.

Lemma own_filter_check cfg env bot channel w messages :
  check_messages cfg env (Some bot) channel w
    (List.filter (fun m => negb (bool_decide (user m = Some bot))) messages) =
  check_messages cfg env (Some bot) channel w messages.
Proof.
  revert w. induction messages as [|m rest IH]; intros w; simpl; [done|].
  destruct (bool_decide (user m = Some bot)) eqn:E; simpl.
  - rewrite IH. f_equal. unfold check_message.
    apply bool_decide_eq_true_1 in E.
    rewrite bool_decide_eq_true_2; [done | by rewrite E].
  - apply IH.
Qed.

Lemma own_filter_scan env bot st messages :
  scan_messages env (Some bot) st
    (List.filter (fun m => negb (bool_decide (user m = Some bot))) messages) =
  scan_messages env (Some bot) st messages.
Proof.
  revert st. induction messages as [|m rest IH]; intros st; simpl; [done|].
  destruct (bool_decide (user m = Some bot)) eqn:E; simpl.
  - rewrite IH. f_equal. destruct st as [w [a b]].
    unfold scan_message, from_bot. by rewrite E.
  - apply IH.
Qed.

Lemma own_filter_log_channels env history bot w channels :
  log_channels env (fun channel t => without_author bot (history channel t))
    (Some bot) w channels =
  log_channels env history (Some bot) w channels.
Proof.
  revert w. induction channels as [|channel rest IH]; intros w; simpl; [done|].
  unfold get_recent_messages.
  destruct (history channel (last_check_time w)) as [messages| |]; simpl;
    [|apply IH | done].
  by rewrite own_filter_log, IH.
Qed.

Lemma own_filter_check_channels cfg env history bot w channels :
  check_channels cfg env
    (fun channel t => without_author bot (history channel t)) (Some bot) w channels =
  check_channels cfg env history (Some bot) w channels.
Proof.
  revert w. induction channels as [|channel rest IH]; intros w; simpl; [done|].
  unfold get_recent_messages.
  destruct (history channel (last_check_time w)) as [messages| |]; simpl;
    [|apply IH | done].
  by rewrite own_filter_check, IH.
Qed.

Lemma own_filter_scan_channels env history bot w total channels :
  scan_channels env (fun channel => without_author bot (history channel))
    (Some bot) w total channels =
  scan_channels env history (Some bot) w total channels.
Proof.
  revert w total.
  induction channels as [|channel rest IH]; intros w total; simpl; [done|].
  destruct (history channel) as [messages| |]; simpl; [|done..].
  rewrite own_filter_scan.
  destruct (scan_messages _ _ _ _) as [w1 [found downloaded]]. apply IH.
Qed.

Lemma own_filter_loop cfg bot w cycles :
  _monitor_loop cfg (Some bot) w (cycle_without_author bot <$> cycles) =
  _monitor_loop cfg (Some bot) w cycles.
Proof.
  revert w. induction cycles as [|c rest IH]; intros w; [done|].
  rewrite fmap_cons. cbn [_monitor_loop].
  assert (Hc : monitor_cycle cfg (Some bot) w (cycle_without_author bot c) =
               monitor_cycle cfg (Some bot) w c).
  { unfold monitor_cycle, log_all_recent_messages,
      check_bot_mentions_and_keywords, cycle_without_author.
    cbn [env log_history trigger_history].
    by rewrite own_filter_log_channels, own_filter_check_channels. }
  rewrite Hc. destruct (monitor_cycle cfg (Some bot) w c) as [w1 goes_on].
  destruct goes_on; [apply IH | done].
Qed.

(** X25. The run as a whole. Without a bot identity [main] returns
    before it reads or writes anything. With one, the whole run, the
    scan of the history and every turn of the loop, ends in the same
    world as it would if the history endpoint had left the messages of
    the bot out of every answer. *)
Theorem main_blind_to_own_messages (cfg : Config) (scan_env : Env)
  (scan_history : string -> HistoryReply) (cycles : list Cycle) (w : World) :
  (forall auth,
     truthy (get_bot_user_id auth) = false ->
     fs (main cfg auth scan_env scan_history cycles w) = fs w /\
     sleeps (main cfg auth scan_env scan_history cycles w) = sleeps w) /\
  (forall bot,
     main cfg (AuthOk (Some bot)) scan_env
       (fun channel => without_author bot (scan_history channel))
       (cycle_without_author bot <$> cycles) w =
     main cfg (AuthOk (Some bot)) scan_env scan_history cycles w).
Proof.
  split.
  - intros auth H. unfold main, __init__. simpl. by rewrite H.
  - intros bot. unfold main, __init__.
    lazy beta iota zeta delta [now get_bot_user_id].
    destruct (truthy (Some bot)); [|done]. cbn [negb].
    unfold check_for_files_in_history. rewrite own_filter_scan_channels.
    destruct (scan_channels _ _ _ _ _ _) as [found w2].
    apply own_filter_loop.
Qed.

Lemma main_blind_to_own_messages_witness :
  fs (main Fixtures.cfg0 AuthApiError Fixtures.env0
        (fun _ => HistoryOk [Fixtures.ann_sends]) [Fixtures.cycle_half]
        Fixtures.w0) = fs Fixtures.w0.
Proof.
  apply (main_blind_to_own_messages Fixtures.cfg0 Fixtures.env0
           (fun _ => HistoryOk [Fixtures.ann_sends]) [Fixtures.cycle_half]
           Fixtures.w0).
  reflexivity.
Defined.

End StartUp.
